(** * ComfyKix storefront script: cart, checkout and order tracking

    A shallow embedding of [src/ComfyKix/script.js].  The script keeps two
    global arrays ([cart] and [orders]) and a handful of page elements; every
    function of the script is embedded as a function on an explicit [State]
    holding the two arrays, the parts of the page the script writes to, and
    the callbacks handed to [setTimeout].

    Conventions of the embedding:
    - a JS string is the list of its UTF-16 code units ([jsstring]); [js]
      turns an ASCII literal into one;
    - a price, and every amount computed from prices, is a binary64 number
      ([float], Rocq's primitive floats): [parseFloat] may answer a fraction
      or [NaN], and [+] and [*] round as in JS;
    - JS numbers that the script only ever uses as integers (quantities,
      array indices, [Date.now()]) are [Z]; [numberOfZ] is the number an
      integer stands for when it meets a price;
    - [parseInt(...)] may answer [NaN], hence the type [JSInt];
    - a JS array is a [list], read with [!!], updated in place with
      [<[i:=x]>], and [splice(i, 1)] is [delete] at the clamped start;
    - the entry objects of a cart are reachable from that cart only: checkout
      copies the array into the order and rebinds [cart] to a new empty
      array, and nothing writes to an order afterwards, so no object is
      shared between the two stores and values stand for the objects;
    - an uncaught [TypeError] aborts the running handler: [Completion];
    - what the script writes to the page is kept as the values its
      templates interpolate ([Row], [StatusDetails]); [rowMarkup] is the
      string a row assigns to [innerHTML], given how the locale formats an
      amount; how the browser parses that string is outside the model, so a
      [Row] stands for one instance of the template, not for the elements
      the browser builds from it;
    - [console.log] leaves no trace in the state and is dropped. *)

From stdpp Require Import base numbers list strings pretty.
From Stdlib Require Import Floats.

Set Warnings "-inexact-float".

(** ** Strings and numbers of JS *)

(** A JS string: its UTF-16 code units. *)
Abbreviation jsstring := (list N).

(** The JS string of an ASCII literal. *)
Definition js (s : string) : jsstring :=
  Ascii.N_of_ascii <$> String.list_ascii_of_string s.

(** Equality of binary64 numbers as values ([NaN] is one value). *)
#[global] Instance float_eq_dec : EqDecision float.
Proof.
  intros x y. destruct (PrimFloat.Leibniz.eqb x y) eqn:Heqb.
  - left. by apply FloatAxioms.Leibniz.eqb_spec.
  - right. intros Heq. apply FloatAxioms.Leibniz.eqb_spec in Heq. congruence.
Defined.

(** The binary64 number of an integer: the nearest one, which is the
    integer itself up to 2^53. *)
Definition numberOfZ (z : Z) : float :=
  SF2Prim (binary_normalize prec emax z 0 false).

(** ** Data model *)

(** [{ name, price, quantity }], line 2 and line 84. *)
Record LineItem := mkLineItem {
  name : jsstring;
  price : float;
  quantity : Z
}.

(** [{ orderId, items, total, date }], lines 3 and 204-209. *)
Record Order := mkOrder {
  orderId : jsstring;
  items : list LineItem;
  total : float;
  date : jsstring
}.

#[global] Instance LineItem_eq_dec : EqDecision LineItem.
Proof. solve_decision. Defined.

#[global] Instance Order_eq_dec : EqDecision Order.
Proof. solve_decision. Defined.

(** The result of [parseInt]: an integer or [NaN]. *)
Inductive JSInt :=
| NaN
| Int (z : Z).

(** The three overlay panels the script opens and closes. *)
Inductive Modal :=
| shoppingCartModal
| orderConfirmationModal
| orderTrackerModal.

(** [style.display] of each panel: [true] is ['flex'], [false] is ['none']. *)
Record Modals := mkModals {
  cartModalOpen : bool;
  confirmationModalOpen : bool;
  trackerModalOpen : bool
}.

(** One [.cart-item] element as the template of lines 52-63 writes it: the
    name and the price it interpolates, the [data-index] its three buttons
    carry, and the quantity it displays. *)
Record Row := mkRow {
  rowName : jsstring;
  rowPrice : float;
  rowIndex : nat;
  rowQuantity : Z
}.

(** What [updateCartDisplay] and [updateCartCount] write: the rows of
    [cartItemsContainer] (no row stands for the empty-cart message), the
    amount in [cartTotalSpan], [buyAllItemsBtn.disabled], and the badge
    [cartCountSpan] (its text and whether it is displayed). *)
Record CartView := mkCartView {
  rows : list Row;
  cartTotalText : float;
  buyAllDisabled : bool;
  cartCountText : Z;
  cartCountShown : bool
}.

(** The content of [orderStatusDisplay]. *)
Inductive StatusContent :=
| StatusMarkup
| StatusText (text : jsstring)
| StatusDetails (shownId shownDate itemsList : jsstring) (shownTotal : float).

(** The order tracker panel: the text field, the status region and its
    two style classes ['success'] and ['error']. *)
Record Tracker := mkTracker {
  orderNumberInput : jsstring;
  status : StatusContent;
  statusSuccess : bool;
  statusError : bool
}.

(** The closures given to [setTimeout] (lines 113 and 131), with what they
    captured. *)
Inductive Callback :=
| CloseConfirmation
| ShowTrackingResult (orderNumber : jsstring) (foundOrder : option Order).

Record Timer := mkTimer {
  delay : Z;
  callback : Callback
}.

Record State := mkState {
  cart : list LineItem;
  orders : list Order;
  view : CartView;
  modals : Modals;
  confirmationOrderId : option jsstring;
  tracker : Tracker;
  timers : list Timer
}.

#[global] Instance JSInt_eq_dec : EqDecision JSInt.
Proof. solve_decision. Defined.
#[global] Instance Modals_eq_dec : EqDecision Modals.
Proof. solve_decision. Defined.
#[global] Instance Row_eq_dec : EqDecision Row.
Proof. solve_decision. Defined.
#[global] Instance CartView_eq_dec : EqDecision CartView.
Proof. solve_decision. Defined.
#[global] Instance StatusContent_eq_dec : EqDecision StatusContent.
Proof. solve_decision. Defined.
#[global] Instance Tracker_eq_dec : EqDecision Tracker.
Proof. solve_decision. Defined.
#[global] Instance Callback_eq_dec : EqDecision Callback.
Proof. solve_decision. Defined.
#[global] Instance Timer_eq_dec : EqDecision Timer.
Proof. solve_decision. Defined.
#[global] Instance State_eq_dec : EqDecision State.
Proof. solve_decision. Defined.

(** Field updates. *)
Definition set_cart (c : list LineItem) (s : State) : State :=
  mkState c (orders s) (view s) (modals s) (confirmationOrderId s)
          (tracker s) (timers s).
Definition set_orders (o : list Order) (s : State) : State :=
  mkState (cart s) o (view s) (modals s) (confirmationOrderId s)
          (tracker s) (timers s).
Definition set_view (v : CartView) (s : State) : State :=
  mkState (cart s) (orders s) v (modals s) (confirmationOrderId s)
          (tracker s) (timers s).
Definition set_modals (m : Modals) (s : State) : State :=
  mkState (cart s) (orders s) (view s) m (confirmationOrderId s)
          (tracker s) (timers s).
Definition set_confirmation (c : option jsstring) (s : State) : State :=
  mkState (cart s) (orders s) (view s) (modals s) c (tracker s) (timers s).
Definition set_tracker (t : Tracker) (s : State) : State :=
  mkState (cart s) (orders s) (view s) (modals s) (confirmationOrderId s)
          t (timers s).
Definition set_timers (t : list Timer) (s : State) : State :=
  mkState (cart s) (orders s) (view s) (modals s) (confirmationOrderId s)
          (tracker s) t.

(** [setTimeout(cb, ms)]: the callback joins the pending ones. *)
Definition setTimeout (cb : Callback) (ms : Z) (s : State) : State :=
  set_timers (timers s ++ [mkTimer ms cb]) s.

(** ** Helper functions of the script *)

(** [cart.reduce((sum, item) => sum + item.quantity, 0)], line 29. *)
Definition totalItems (c : list LineItem) : Z :=
  foldl (λ sum item, sum + quantity item)%Z 0%Z c.

(** [updateCartCount], lines 28-32. *)
Definition updateCartCount (s : State) : State :=
  let n := totalItems (cart s) in
  let v := view s in
  set_view (mkCartView (rows v) (cartTotalText v) (buyAllDisabled v)
                       n (bool_decide (n > 0)%Z)) s.

(** [cart.reduce((sum, item) => sum + (item.price * item.quantity), 0)],
    line 201; the [forEach] of lines 48-66 accumulates the same amount in
    the same order. *)
Definition cartTotal (c : list LineItem) : float :=
  foldl (λ sum item, sum + price item * numberOfZ (quantity item))%float
        0%float c.

(** The elements the [forEach] of lines 49-66 appends, one per entry, with
    the position of the entry as [data-index]. *)
Definition renderRows (c : list LineItem) : list Row :=
  imap (λ index item, mkRow (name item) (price item) index (quantity item)) c.

(** [updateCartDisplay], lines 38-71.  On the empty cart it returns before
    the badge is refreshed. *)
Definition updateCartDisplay (s : State) : State :=
  let v := view s in
  if bool_decide (length (cart s) = 0)
  then set_view (mkCartView [] 0 true (cartCountText v) (cartCountShown v)) s
  else
    updateCartCount
      (set_view (mkCartView (renderRows (cart s)) (cartTotal (cart s)) false
                            (cartCountText v) (cartCountShown v)) s).

(** [cart[i].quantity++] and [cart[i].quantity--] on the entry itself. *)
Definition incrQuantity (item : LineItem) : LineItem :=
  mkLineItem (name item) (price item) (quantity item + 1).
Definition decrQuantity (item : LineItem) : LineItem :=
  mkLineItem (name item) (price item) (quantity item - 1).

(** [cart.findIndex(item => item.name === name)], line 79: the first
    position holding the name ([None] stands for [-1]), with its entry. *)
Definition findIndex (n : jsstring) (c : list LineItem) : option (nat * LineItem) :=
  list_find (λ item, name item = n) c.

(** [addItemToCart], lines 78-88. *)
Definition addItemToCart (n : jsstring) (p : float) (s : State) : State :=
  updateCartDisplay
    match findIndex n (cart s) with
    | Some (existingItemIndex, item) =>
        set_cart (<[existingItemIndex := incrQuantity item]> (cart s)) s
    | None => set_cart (cart s ++ [mkLineItem n p 1]) s
    end.

(** [openModal] and [closeModal], lines 94-104. *)
Definition setModal (m : Modal) (b : bool) (ms : Modals) : Modals :=
  match m with
  | shoppingCartModal =>
      mkModals b (confirmationModalOpen ms) (trackerModalOpen ms)
  | orderConfirmationModal =>
      mkModals (cartModalOpen ms) b (trackerModalOpen ms)
  | orderTrackerModal =>
      mkModals (cartModalOpen ms) (confirmationModalOpen ms) b
  end.
Definition openModal (m : Modal) (s : State) : State :=
  set_modals (setModal m true (modals s)) s.
Definition closeModal (m : Modal) (s : State) : State :=
  set_modals (setModal m false (modals s)) s.

(** [showOrderConfirmation], lines 110-116. *)
Definition showOrderConfirmation (id : jsstring) (s : State) : State :=
  setTimeout CloseConfirmation 5000
    (openModal orderConfirmationModal (set_confirmation (Some id) s)).

(** ** Order ids *)

(** [Number.prototype.toString] on an integer: its decimal digits, with a
    leading [-] below zero.  (JS writes integers this way up to 10^21; the
    time values of [Date] and the quantities of a cart stay far below.) *)
Definition numberToString (z : Z) : jsstring := js (pretty z).

(** [s.slice(-k)]: the last [k] code units, all of [s] when it is shorter. *)
Definition sliceLast (k : nat) (s : jsstring) : jsstring :=
  drop (length s - k) s.

(** [Date.now().toString().slice(-6)], line 200. *)
Definition newOrderId (now : Z) : jsstring :=
  sliceLast 6 (numberToString now).

(** ** The markup of a cart row *)

(** The template literal of lines 52-63: the string assigned to
    [itemElement.innerHTML].  Name, amount, quantity and index are put in
    as they are, nothing is escaped.  [toLocaleString] stands for
    [Number.prototype.toLocaleString('en-IN')]. *)
Definition quot : jsstring := [34%N].
Definition newline : jsstring := [10%N].
Definition rupee : jsstring := [8377%N].
Definition attribute (k : string) (v : jsstring) : jsstring :=
  js k ++ js "=" ++ quot ++ v ++ quot.
Definition rowMarkupBeforeName : jsstring :=
  newline
  ++ js "      <div " ++ attribute "class" (js "cart-item-info") ++ js ">" ++ newline
  ++ js "        <p " ++ attribute "class" (js "item-name") ++ js ">".
Definition rowMarkupAfterName (toLocaleString : float → jsstring) (r : Row)
  : jsstring :=
  let index := numberToString (Z.of_nat (rowIndex r)) in
  js "</p>" ++ newline
  ++ js "        <p " ++ attribute "class" (js "item-price") ++ js ">"
  ++ rupee ++ toLocaleString (rowPrice r) ++ js "</p>" ++ newline
  ++ js "      </div>" ++ newline
  ++ js "      <div " ++ attribute "class" (js "cart-item-controls") ++ js ">"
  ++ newline
  ++ js "        <button " ++ attribute "class" (js "decrease-quantity-btn")
  ++ js " " ++ attribute "data-index" index ++ js ">-</button>" ++ newline
  ++ js "        <span " ++ attribute "class" (js "quantity-display") ++ js ">"
  ++ numberToString (rowQuantity r) ++ js "</span>" ++ newline
  ++ js "        <button " ++ attribute "class" (js "increase-quantity-btn")
  ++ js " " ++ attribute "data-index" index ++ js ">+</button>" ++ newline
  ++ js "        <button " ++ attribute "class" (js "remove-item-btn")
  ++ js " " ++ attribute "data-index" index ++ js ">Remove</button>" ++ newline
  ++ js "      </div>" ++ newline
  ++ js "    ".
Definition rowMarkup (toLocaleString : float → jsstring) (r : Row) : jsstring :=
  rowMarkupBeforeName ++ rowName r ++ rowMarkupAfterName toLocaleString r.

(** ** Order tracking *)

(** [orders.find(order => order.orderId === orderNumber)], line 128, with
    the position of the order found. *)
Definition findOrder (orderNumber : jsstring) (os : list Order) : option (nat * Order) :=
  list_find (λ order, orderId order = orderNumber) os.

(** [Array.prototype.join]. *)
Fixpoint join (sep : jsstring) (l : list jsstring) : jsstring :=
  match l with
  | [] => []
  | [x] => x
  | x :: rest => x ++ sep ++ join sep rest
  end.

(** [foundOrder.items.map(item => `${item.name} (x${item.quantity})`).join(', ')],
    line 133. *)
Definition itemLabel (item : LineItem) : jsstring :=
  name item ++ js " (x" ++ numberToString (quantity item) ++ js ")".
Definition itemsListOf (o : Order) : jsstring :=
  join (js ", ") (itemLabel <$> items o).

Definition notFoundText (orderNumber : jsstring) : jsstring :=
  js "Order " ++ orderNumber
  ++ js ": Not Found. Please check the number and try again.".

(** The body of the delayed closure of [trackOrder], lines 132-145. *)
Definition showTrackingResult (orderNumber : jsstring) (foundOrder : option Order)
    (s : State) : State :=
  let t := tracker s in
  match foundOrder with
  | Some o =>
      set_tracker
        (mkTracker (orderNumberInput t)
                   (StatusDetails (orderId o) (date o) (itemsListOf o) (total o))
                   true (statusError t)) s
  | None =>
      set_tracker
        (mkTracker (orderNumberInput t) (StatusText (notFoundText orderNumber))
                   (statusSuccess t) true) s
  end.

(** [trackOrder], lines 123-147: the search runs at once, its result is
    shown by the closure scheduled 1500 ms later. *)
Definition trackOrder (orderNumber : jsstring) (s : State) : State :=
  let t := tracker s in
  let s1 :=
    set_tracker (mkTracker (orderNumberInput t)
                           (StatusText (js "Tracking your order...")) false false) s in
  let foundOrder := snd <$> findOrder orderNumber (orders s1) in
  setTimeout (ShowTrackingResult orderNumber foundOrder) 1500 s1.

(** The code units [String.prototype.trim] strips: the white space and the
    line terminators of ECMAScript (TAB, LF, VT, FF, CR, SPACE, NBSP,
    U+1680, U+2000 to U+200A, U+2028, U+2029, U+202F, U+205F, U+3000 and
    U+FEFF). *)
Definition isWhiteSpace (u : N) : bool :=
  bool_decide (u ∈ [9; 10; 11; 12; 13; 32; 160; 5760; 8232; 8233; 8239; 8287;
                    12288; 65279]%N)
  || bool_decide (8192 ≤ u ≤ 8202)%N.

(** [String.prototype.trim]: white space is stripped at both ends. *)
Fixpoint trimStart (s : jsstring) : jsstring :=
  match s with
  | [] => []
  | u :: s' => if isWhiteSpace u then trimStart s' else s
  end.
Fixpoint trimEnd (s : jsstring) : jsstring :=
  match s with
  | [] => []
  | u :: s' =>
      match trimEnd s' with
      | [] => if isWhiteSpace u then [] else [u]
      | rest => u :: rest
      end
  end.
Definition trim (s : jsstring) : jsstring := trimEnd (trimStart s).

(** The click listener of [trackOrderBtn], lines 271-279.  A string is
    truthy when it is not empty. *)
Definition trackOrderBtnClick (s : State) : State :=
  let orderNumber := trim (orderNumberInput (tracker s)) in
  if bool_decide (orderNumber ≠ [])
  then trackOrder orderNumber s
  else
    let t := tracker s in
    set_tracker (mkTracker (orderNumberInput t)
                           (StatusText (js "Please enter a valid order number."))
                           (statusSuccess t) true) s.

(** The click listener of [orderTrackerLink], lines 259-265. *)
Definition orderTrackerLinkClick (s : State) : State :=
  set_tracker (mkTracker [] (StatusText (js "Enter an order number above."))
                         false false)
    (openModal orderTrackerModal s).

(** ** Event handlers *)

(** [handleAddToCartClick] and [handleBuyNowClick], lines 155-171, on the
    name and the parsed price carried by the button. *)
Definition handleAddToCartClick (productName : jsstring) (productPrice : float)
    (s : State) : State :=
  addItemToCart productName productPrice s.

Definition handleBuyNowClick (productName : jsstring) (productPrice : float)
    (s : State) : State :=
  openModal shoppingCartModal (addItemToCart productName productPrice s).

(** The element clicked inside [cartItemsContainer]: its classes and
    [parseInt(target.dataset.index)]. *)
Record ClickTarget := mkClickTarget {
  classList : list string;
  dataIndex : JSInt
}.

Definition contains (t : ClickTarget) (c : string) : bool :=
  bool_decide (c ∈ classList t).

(** [cart[index]]: an array has an element only at an integer position
    from 0 on; everywhere else the read answers [undefined]. *)
Definition arrayIndex (i : JSInt) : option nat :=
  match i with
  | NaN => None
  | Int z => if bool_decide (z < 0)%Z then None else Some (Z.to_nat z)
  end.
Definition at_index {A} (l : list A) (i : JSInt) : option (nat * A) :=
  k ← arrayIndex i; x ← l !! k; Some (k, x).

(** [splice(start, 1)]: [NaN] starts at 0, a negative start counts from the
    end, and the start is clamped to the array; one element is deleted when
    there is one at the start. *)
Definition spliceStart (len : nat) (start : JSInt) : nat :=
  match start with
  | NaN => 0
  | Int z =>
      if bool_decide (z < 0)%Z
      then Z.to_nat (Z.max (Z.of_nat len + z) 0)
      else Z.to_nat (Z.min z (Z.of_nat len))
  end.
Definition splice1 {A} (start : JSInt) (l : list A) : list A :=
  delete (spliceStart (length l) start) l.

Inductive JSError := TypeError.

(** How a handler ends: normally, or by an uncaught exception. *)
Inductive Completion :=
| Normal (s : State)
| Throw (e : JSError).

(** [handleCartControlsClick], lines 176-193.  Reading [.quantity] of
    [undefined] throws before anything is written. *)
Definition handleCartControlsClick (target : ClickTarget) (s : State) : Completion :=
  let index := dataIndex target in
  if contains target "increase-quantity-btn" then
    match at_index (cart s) index with
    | Some (i, item) =>
        Normal (updateCartDisplay (set_cart (<[i := incrQuantity item]> (cart s)) s))
    | None => Throw TypeError
    end
  else if contains target "decrease-quantity-btn" then
    match at_index (cart s) index with
    | Some (i, item) =>
        if bool_decide (quantity item > 1)%Z
        then Normal (updateCartDisplay
                       (set_cart (<[i := decrQuantity item]> (cart s)) s))
        else Normal (updateCartDisplay (set_cart (splice1 index (cart s)) s))
    | None => Throw TypeError
    end
  else if contains target "remove-item-btn" then
    Normal (updateCartDisplay (set_cart (splice1 index (cart s)) s))
  else Normal (updateCartDisplay s).

(** [handleBuyAllItemsClick], lines 198-217.  [now] is what [Date.now()]
    answers and [localeDate] what [new Date().toLocaleString()] answers. *)
Definition handleBuyAllItemsClick (now : Z) (localeDate : jsstring) (s : State) : State :=
  if bool_decide (0 < length (cart s)) then
    let id := newOrderId now in
    let orderTotal := cartTotal (cart s) in
    let s1 := set_orders (orders s ++ [mkOrder id (cart s) orderTotal localeDate]) s in
    let s2 := set_cart [] s1 in
    showOrderConfirmation id (closeModal shoppingCartModal (updateCartDisplay s2))
  else s.

(** ** The page as a transition system *)

Inductive Event :=
| AddToCartClick (productName : jsstring) (productPrice : float)
| BuyNowClick (productName : jsstring) (productPrice : float)
| CartIconClick
| CloseButtonClick (m : Modal)
| CloseConfirmationClick
| BuyAllItemsClick (now : Z) (localeDate : jsstring)
| CartControlsClick (target : ClickTarget)
| OrderTrackerLinkClick
| CloseTrackerClick
| TypeOrderNumber (text : jsstring)
| TrackOrderClick
| TimerFires (i : nat).

Definition runCallback (cb : Callback) (s : State) : State :=
  match cb with
  | CloseConfirmation => closeModal orderConfirmationModal s
  | ShowTrackingResult orderNumber foundOrder =>
      showTrackingResult orderNumber foundOrder s
  end.

(** The listeners installed at lines 220-280.  A timer fires once and is
    gone; typing replaces the value of the text field. *)
Definition dispatch (s : State) (e : Event) : Completion :=
  match e with
  | AddToCartClick n p => Normal (handleAddToCartClick n p s)
  | BuyNowClick n p => Normal (handleBuyNowClick n p s)
  | CartIconClick => Normal (openModal shoppingCartModal s)
  | CloseButtonClick m => Normal (closeModal m s)
  | CloseConfirmationClick => Normal (closeModal orderConfirmationModal s)
  | BuyAllItemsClick now localeDate => Normal (handleBuyAllItemsClick now localeDate s)
  | CartControlsClick target => handleCartControlsClick target s
  | OrderTrackerLinkClick => Normal (orderTrackerLinkClick s)
  | CloseTrackerClick => Normal (closeModal orderTrackerModal s)
  | TypeOrderNumber text =>
      let t := tracker s in
      Normal (set_tracker (mkTracker text (status t) (statusSuccess t)
                                     (statusError t)) s)
  | TrackOrderClick => Normal (trackOrderBtnClick s)
  | TimerFires i =>
      match timers s !! i with
      | Some t => Normal (runCallback (callback t) (set_timers (delete i (timers s)) s))
      | None => Normal s
      end
  end.

(** An exception ends the handler; the page goes on from the state the
    handler had reached, which here is the one it started from. *)
Definition step (s : State) (e : Event) : State :=
  match dispatch s e with
  | Normal s' => s'
  | Throw _ => s
  end.

Definition run (s : State) (es : list Event) : State := foldl step s es.

(** The globals of lines 2-3 over the page as its markup gives it. *)
Definition scriptStart (v : CartView) (m : Modals) (c : option jsstring)
    (t : Tracker) : State :=
  mkState [] [] v m c t [].

(** The end of the [DOMContentLoaded] listener, lines 254-256. *)
Definition DOMContentLoaded (s : State) : State :=
  updateCartCount (updateCartDisplay s).

Inductive reachable : State → Prop :=
| reachable_load v m c t : reachable (DOMContentLoaded (scriptStart v m c t))
| reachable_step s e : reachable s → reachable (step s e).

(** A page fresh from its markup, for running examples. *)
Definition freshPage : State :=
  DOMContentLoaded
    (scriptStart (mkCartView [] 0 true 0 false) (mkModals false false false)
                 None (mkTracker [] StatusMarkup false false)).


(** ** Specification-side definitions *)

(** The sum of price × quantity over the entries, as the specification
    words the total of a cart: the sum of the first [k] terms is the sum of
    the first [k - 1] terms plus the [k]-th term, in the arithmetic of JS
    numbers, and the sum of no term is 0. *)
Definition amountAt (c : list LineItem) (i : nat) : float :=
  match c !! i with
  | Some item => (price item * numberOfZ (quantity item))%float
  | None => 0%float
  end.
Fixpoint partialSum (c : list LineItem) (k : nat) : float :=
  match k with
  | O => 0%float
  | S k' => (partialSum c k' + amountAt c k')%float
  end.
Definition sumPriceQuantity (c : list LineItem) : float :=
  partialSum c (length c).

(** The last [k] decimal digits of [x], zero-padded, in front of [s]. *)
Fixpoint lastDigits (k : nat) (x : N) (s : string) : string :=
  match k with
  | O => s
  | S k' => lastDigits k' (x `div` 10)%N (String (pretty_N_char (x `mod` 10)%N) s)
  end.

(** The decimal digit of weight [10 ^ i] of a timestamp, as a code unit. *)
Definition digitAt (i : Z) (now : Z) : N :=
  Ascii.N_of_ascii (pretty_N_char (Z.to_N ((now `div` 10 ^ i) `mod` 10))).

(** No white space anywhere in the string. *)
Definition noSpace (s : jsstring) : bool :=
  forallb (λ u, negb (isWhiteSpace u)) s.

(** What the tracker panel shows once a lookup has been answered. *)
Definition trackingOutcome (id : jsstring) (found : option Order) : Tracker :=
  match found with
  | Some o =>
      mkTracker id (StatusDetails (orderId o) (date o) (itemsListOf o) (total o))
                true false
  | None => mkTracker id (StatusText (notFoundText id)) false true
  end.

(** Typing an id, clicking the track button and letting the delayed
    closure run. *)
Definition lookupEvents (id : jsstring) (s : State) : list Event :=
  [TypeOrderNumber id; TrackOrderClick; TimerFires (length (timers s))].

(** The order a checkout of state [s] at time [now] stores. *)
Definition orderOf (now : Z) (localeDate : jsstring) (s : State) : Order :=
  mkOrder (newOrderId now) (cart s) (cartTotal (cart s)) localeDate.

(** Looking up the id a checkout has just produced finds the order that
    checkout stored. *)
Definition lookupFindsNewOrder (now : Z) (localeDate : jsstring) (s : State) : Prop :=
  snd <$> findOrder (newOrderId now)
            (orders (handleBuyAllItemsClick now localeDate s))
  = Some (orderOf now localeDate s).

(** A hoodie bought at 1700000123456 ms, then a cap in the cart. *)
Definition hoodieBought : State :=
  run freshPage [AddToCartClick (js "Hoodie") 1200;
                 BuyAllItemsClick 1700000123456 (js "14/11/2023, 22:15:23");
                 AddToCartClick (js "Cap") 300].

(** The cart panel shows the cart: one row per entry, each with the
    position of its entry as the index of its buttons, the total of the
    entries, and a buy button that is disabled exactly on the empty cart. *)
Definition viewInSync (s : State) : Prop :=
  rows (view s) = renderRows (cart s)
  ∧ cartTotalText (view s) = cartTotal (cart s)
  ∧ buyAllDisabled (view s) = bool_decide (cart s = []).

(** At most one line item per product name, every quantity at least 1. *)
Definition cartInvariant (c : list LineItem) : Prop :=
  NoDup (name <$> c) ∧ Forall (λ item, 1 ≤ quantity item)%Z c.

#[global] Instance cartInvariant_dec c : Decision (cartInvariant c).
Proof. unfold cartInvariant. apply _. Defined.

(** ** Definitions for the properties of the whole page *)

(** The three buttons rendered in row [i] of the cart panel, lines 58-61:
    their class and their [data-index]. *)
Definition increaseBtn (i : nat) : ClickTarget :=
  mkClickTarget ["increase-quantity-btn"] (Int (Z.of_nat i)).
Definition decreaseBtn (i : nat) : ClickTarget :=
  mkClickTarget ["decrease-quantity-btn"] (Int (Z.of_nat i)).
Definition removeBtn (i : nat) : ClickTarget :=
  mkClickTarget ["remove-item-btn"] (Int (Z.of_nat i)).

(** The buttons the template writes into a row, in the order of lines
    58-61: decrease, increase, remove. *)
Definition buttonsOf (r : Row) : list ClickTarget :=
  [decreaseBtn (rowIndex r); increaseBtn (rowIndex r); removeBtn (rowIndex r)].

(** The sum of [f] over the entries of a cart. *)
Definition sumZ (f : LineItem → Z) (c : list LineItem) : Z :=
  foldr (λ item acc, f item + acc)%Z 0%Z c.

(** The number of items in a cart: the sum of its quantities. *)
Definition sumQuantity (c : list LineItem) : Z := sumZ quantity c.

(** What the badge on the shopping bag icon shows: its text and whether it
    is displayed. *)
Definition badge (s : State) : Z * bool :=
  (cartCountText (view s), cartCountShown (view s)).

(** While the cart has entries, the badge shows their number. *)
Definition badgeInSync (s : State) : Prop :=
  cart s ≠ [] →
  cartCountText (view s) = totalItems (cart s)
  ∧ cartCountShown (view s) = bool_decide (totalItems (cart s) > 0)%Z.

(** Events that can create an order. *)
Definition isCheckout (e : Event) : bool :=
  match e with
  | BuyAllItemsClick _ _ => true
  | _ => false
  end.

(** What every stored order satisfies: it has items, at most one per name
    and each of quantity at least 1, its total is the total of a cart with
    those items, and its id is a non-empty token of at most 6 code units
    without white space. *)
Definition orderWellFormed (o : Order) : Prop :=
  items o ≠ []
  ∧ cartInvariant (items o)
  ∧ total o = cartTotal (items o)
  ∧ orderId o ≠ []
  ∧ length (orderId o) ≤ 6
  ∧ noSpace (orderId o) = true.

(** The details the tracker renders for an order, lines 133-140. *)
Definition detailsOf (o : Order) : StatusContent :=
  StatusDetails (orderId o) (date o) (itemsListOf o) (total o).

(** A pending closure shows only an order of the store, found under the
    number that was asked for. *)
Definition callbackSafe (os : list Order) (cb : Callback) : Prop :=
  match cb with
  | ShowTrackingResult n (Some o) => o ∈ os ∧ orderId o = n
  | _ => True
  end.

(** Order details on display are those of an order of the store. *)
Definition statusSafe (os : list Order) (st : StatusContent) : Prop :=
  match st with
  | StatusDetails _ _ _ _ => ∃ o, o ∈ os ∧ st = detailsOf o
  | _ => True
  end.

Definition trackerSafe (s : State) : Prop :=
  Forall (λ t, callbackSafe (orders s) (callback t)) (timers s)
  ∧ statusSafe (orders s) (status (tracker s)).

(** A run of add-to-cart clicks, one per (name, price) pair. *)
Definition addClicks (adds : list (jsstring * float)) : list Event :=
  (λ a, AddToCartClick a.1 a.2) <$> adds.

(** How often a name was added, and the price of its first add. *)
Definition occurrences (n : jsstring) (adds : list (jsstring * float)) : Z :=
  Z.of_nat (length (filter (λ a, a.1 = n) adds)).
Definition firstPrice (n : jsstring) (adds : list (jsstring * float)) : option float :=
  (λ r, r.2.2) <$> list_find (λ a, a.1 = n) adds.

(** ** Tactics *)

(** Closes a decidable goal without free variables by evaluation. *)
Ltac closed_decision := apply (bool_decide_unpack _); vm_compute; exact I.

(** ** Frame lemmas: what the helpers leave alone *)

Section Frame.
Variable s : State.

Lemma cart_updateCartDisplay : cart (updateCartDisplay s) = cart s.
Proof. unfold updateCartDisplay. by case_bool_decide. Qed.

Lemma orders_updateCartDisplay : orders (updateCartDisplay s) = orders s.
Proof. unfold updateCartDisplay. by case_bool_decide. Qed.

Lemma timers_updateCartDisplay : timers (updateCartDisplay s) = timers s.
Proof. unfold updateCartDisplay. by case_bool_decide. Qed.

Lemma tracker_updateCartDisplay : tracker (updateCartDisplay s) = tracker s.
Proof. unfold updateCartDisplay. by case_bool_decide. Qed.

Lemma modals_updateCartDisplay : modals (updateCartDisplay s) = modals s.
Proof. unfold updateCartDisplay. by case_bool_decide. Qed.
End Frame.

Create Rewrite HintDb frame.
#[global] Hint Rewrite cart_updateCartDisplay orders_updateCartDisplay
  timers_updateCartDisplay tracker_updateCartDisplay modals_updateCartDisplay
  : frame.

Lemma cartTotal_snoc c item :
  cartTotal (c ++ [item])
  = (cartTotal c + price item * numberOfZ (quantity item))%float.
Proof. unfold cartTotal. by rewrite foldl_snoc. Qed.

Lemma partialSum_take c k :
  k ≤ length c → partialSum c k = cartTotal (take k c).
Proof.
  induction k as [|k IH]; intros Hk; [done|].
  destruct (lookup_lt_is_Some_2 c k) as [item Hi]; [lia|].
  rewrite (take_S_r _ _ _ Hi), cartTotal_snoc. simpl. rewrite IH by lia.
  unfold amountAt. by rewrite Hi.
Qed.

(** The total the script accumulates in its [forEach] and [reduce] loops is
    the sum of price × quantity over the entries. *)
Lemma cartTotal_sum c : cartTotal c = sumPriceQuantity c.
Proof.
  unfold sumPriceQuantity. rewrite partialSum_take by done.
  by rewrite firstn_all.
Qed.

Lemma length_pos_nonempty {A} (l : list A) : 0 < length l ↔ l ≠ [].
Proof. destruct l; simpl; split; (done || lia). Qed.

(** ** Checkout *)

Lemma handleBuyAllItemsClick_nonempty now localeDate s :
  cart s ≠ [] →
  handleBuyAllItemsClick now localeDate s
  = showOrderConfirmation (newOrderId now)
      (closeModal shoppingCartModal
         (updateCartDisplay
            (set_cart []
               (set_orders
                  (orders s ++ [mkOrder (newOrderId now) (cart s)
                                        (cartTotal (cart s)) localeDate]) s)))).
Proof.
  intros Hne. unfold handleBuyAllItemsClick.
  rewrite bool_decide_eq_true_2; [done|]. by apply length_pos_nonempty.
Qed.

Lemma orders_checkout now localeDate s :
  cart s ≠ [] →
  orders (handleBuyAllItemsClick now localeDate s)
  = orders s ++ [mkOrder (newOrderId now) (cart s) (cartTotal (cart s)) localeDate].
Proof. intros Hne. by rewrite handleBuyAllItemsClick_nonempty. Qed.

Lemma cart_checkout now localeDate s :
  cart (handleBuyAllItemsClick now localeDate s) = [].
Proof.
  unfold handleBuyAllItemsClick. case_bool_decide as Hlen; [done|].
  destruct (cart s); [done|]. simpl in Hlen. lia.
Qed.

Lemma handleBuyAllItemsClick_empty now localeDate s :
  cart s = [] → handleBuyAllItemsClick now localeDate s = s.
Proof.
  intros Hempty. unfold handleBuyAllItemsClick.
  case_bool_decide as Hlen; [|done].
  rewrite Hempty in Hlen. simpl in Hlen. lia.
Qed.

(** C2: checkout on the empty cart changes nothing at all: the order store
    is as it was, no order is created, and the cart stays empty. *)
Theorem checkout_empty_noop now localeDate s :
  cart s = [] →
  handleBuyAllItemsClick now localeDate s = s
  ∧ orders (handleBuyAllItemsClick now localeDate s) = orders s
  ∧ cart (handleBuyAllItemsClick now localeDate s) = [].
Proof.
  intros Hempty. rewrite handleBuyAllItemsClick_empty by done.
  by rewrite Hempty.
Qed.

Lemma checkout_empty_noop_witness :
  handleBuyAllItemsClick 1700000123456 (js "today") freshPage = freshPage
  ∧ orders (handleBuyAllItemsClick 1700000123456 (js "today") freshPage) = []
  ∧ cart (handleBuyAllItemsClick 1700000123456 (js "today") freshPage) = [].
Proof. apply (checkout_empty_noop 1700000123456 (js "today") freshPage). reflexivity. Defined.

(** ** The cart invariant *)

Lemma cartInvariant_nil : cartInvariant [].
Proof. split; [constructor|constructor]. Qed.

Lemma names_insert_same (c : list LineItem) i item item' :
  c !! i = Some item → name item' = name item →
  name <$> <[i := item']> c = name <$> c.
Proof.
  intros Hi Hname. rewrite list_fmap_insert, Hname.
  apply list_insert_id. by rewrite list_lookup_fmap, Hi.
Qed.

Lemma cartInvariant_insert (c : list LineItem) i item item' :
  c !! i = Some item → name item' = name item → (1 ≤ quantity item')%Z →
  cartInvariant c → cartInvariant (<[i := item']> c).
Proof.
  intros Hi Hname Hq [Hnd Hall]. split.
  - by rewrite (names_insert_same c i item item').
  - by apply Forall_insert.
Qed.

Lemma cartInvariant_delete (c : list LineItem) i :
  cartInvariant c → cartInvariant (delete i c).
Proof.
  intros [Hnd Hall]. split.
  - rewrite list_fmap_delete. eapply sublist_NoDup; [exact Hnd|].
    apply sublist_delete.
  - by apply Forall_delete.
Qed.

Lemma cartInvariant_snoc (c : list LineItem) n p :
  n ∉ name <$> c → cartInvariant c → cartInvariant (c ++ [mkLineItem n p 1]).
Proof.
  intros Hfresh [Hnd Hall]. split.
  - rewrite fmap_app. apply NoDup_app. split_and!; [done| |apply NoDup_singleton].
    simpl. intros x Hx ->%list_elem_of_singleton. done.
  - apply Forall_app. split; [done|]. by repeat constructor.
Qed.

Lemma findIndex_Some n c i item :
  findIndex n c = Some (i, item) ↔
  c !! i = Some item ∧ name item = n
  ∧ ∀ j item', c !! j = Some item' → j < i → name item' ≠ n.
Proof. unfold findIndex. by rewrite list_find_Some. Qed.

Lemma findIndex_None n c : findIndex n c = None ↔ n ∉ name <$> c.
Proof.
  unfold findIndex. rewrite list_find_None, Forall_forall. split.
  - intros Hall (item & -> & Hin)%list_elem_of_fmap. by eapply Hall.
  - intros Hnot item Hin Hname. apply Hnot, list_elem_of_fmap. eauto.
Qed.

Lemma cart_addItemToCart n p s :
  cart (addItemToCart n p s)
  = match findIndex n (cart s) with
    | Some (i, item) => <[i := incrQuantity item]> (cart s)
    | None => cart s ++ [mkLineItem n p 1]
    end.
Proof.
  unfold addItemToCart. rewrite cart_updateCartDisplay.
  by destruct (findIndex n (cart s)) as [[i item]|].
Qed.

Lemma orders_addItemToCart n p s : orders (addItemToCart n p s) = orders s.
Proof.
  unfold addItemToCart. rewrite orders_updateCartDisplay.
  by destruct (findIndex n (cart s)) as [[i item]|].
Qed.

Lemma cartInvariant_addItemToCart n p s :
  cartInvariant (cart s) → cartInvariant (cart (addItemToCart n p s)).
Proof.
  intros Hinv. rewrite cart_addItemToCart.
  destruct (findIndex n (cart s)) as [[i item]|] eqn:Hfind.
  - apply findIndex_Some in Hfind as (Hi & _ & _).
    apply (cartInvariant_insert _ i item); [done..| |done].
    destruct Hinv as [_ Hall]. rewrite Forall_lookup in Hall.
    specialize (Hall i item Hi). simpl in *. lia.
  - apply findIndex_None in Hfind. by apply cartInvariant_snoc.
Qed.

Lemma at_index_Some {A} (l : list A) index i x :
  at_index l index = Some (i, x) ↔
  (∃ z, index = Int z ∧ (0 ≤ z)%Z ∧ i = Z.to_nat z) ∧ l !! i = Some x.
Proof.
  unfold at_index, arrayIndex. destruct index as [|z]; simpl.
  - split; [done|]. by intros [(z & ? & _) _].
  - case_bool_decide as Hz; simpl.
    + split; [done|]. intros [(z' & [= <-] & ? & _) _]. lia.
    + destruct (l !! Z.to_nat z) as [y|] eqn:Hl; simpl.
      * split.
        -- intros [= <- <-]. split; [|done]. exists z. split_and!; (done || lia).
        -- intros [(z' & [= <-] & _ & ->) Hx]. rewrite Hl in Hx. by simplify_eq.
      * split; [done|]. intros [(z' & [= <-] & _ & ->) Hx]. by rewrite Hl in Hx.
Qed.

Lemma at_index_nat {A} (l : list A) i x :
  l !! i = Some x → at_index l (Int (Z.of_nat i)) = Some (i, x).
Proof.
  intros Hl. apply at_index_Some. split; [|done].
  exists (Z.of_nat i). split_and!; (done || lia).
Qed.

Lemma splice1_nat {A} (l : list A) i :
  i < length l → splice1 (Int (Z.of_nat i)) l = delete i l.
Proof.
  intros Hlt. unfold splice1, spliceStart.
  rewrite bool_decide_eq_false_2 by lia. f_equal. lia.
Qed.

Lemma cartInvariant_controls target s s' :
  handleCartControlsClick target s = Normal s' →
  cartInvariant (cart s) → cartInvariant (cart s').
Proof.
  unfold handleCartControlsClick. intros Hrun Hinv.
  repeat case_match; simplify_eq; rewrite cart_updateCartDisplay; simpl;
    try (by apply cartInvariant_delete); try done.
  - match goal with H : at_index _ _ = Some _ |- _ =>
      apply at_index_Some in H as [_ Hi] end.
    eapply cartInvariant_insert; [done..| |done].
    destruct Hinv as [_ Hall]. rewrite Forall_lookup in Hall.
    match goal with H : cart s !! _ = Some _ |- _ => specialize (Hall _ _ H) end.
    simpl in *. lia.
  - match goal with H : at_index _ _ = Some _ |- _ =>
      apply at_index_Some in H as [_ Hi] end.
    eapply cartInvariant_insert; [done..| |done].
    match goal with H : bool_decide _ = true |- _ =>
      apply bool_decide_eq_true_1 in H end.
    simpl. lia.
Qed.

Lemma cart_step_cases s e :
  cart (step s e) = cart s
  ∨ cart (step s e) = []
  ∨ (∃ n p, cart (step s e) = cart (addItemToCart n p s))
  ∨ (∃ target s', handleCartControlsClick target s = Normal s'
                   ∧ cart (step s e) = cart s').
Proof.
  unfold step. destruct e; simpl;
    try (left; reflexivity).
  - right; right; left. eauto.
  - right; right; left. eauto.
  - right; left. apply cart_checkout.
  - destruct (handleCartControlsClick target s) as [s'|] eqn:Hrun.
    + right; right; right. eauto.
    + by left.
  - left. unfold trackOrderBtnClick. by case_bool_decide.
  - left. destruct (timers s !! i) as [[d [|n o]]|]; [| |done].
    + done.
    + simpl. unfold showTrackingResult. by destruct o.
Qed.

Lemma cartInvariant_step s e :
  cartInvariant (cart s) → cartInvariant (cart (step s e)).
Proof.
  intros Hinv.
  destruct (cart_step_cases s e)
    as [-> | [-> | [(n & p & ->) | (target & s' & Hrun & ->)]]].
  - done.
  - apply cartInvariant_nil.
  - by apply cartInvariant_addItemToCart.
  - by eapply cartInvariant_controls.
Qed.

Lemma cartInvariant_reachable s : reachable s → cartInvariant (cart s).
Proof.
  induction 1 as [v m c t | s e _ IH].
  - apply cartInvariant_nil.
  - by apply cartInvariant_step.
Qed.

(** C3: every cart operation of the page (add, increase, decrease, remove,
    the clearing at checkout, and every other event) preserves the invariant
    that the cart holds at most one line item per product name and only
    quantities of at least 1; hence every reachable cart satisfies it, and no
    reachable cart holds an entry of quantity 0. *)
Theorem cart_invariant_preserved :
  (∀ s e, cartInvariant (cart s) → cartInvariant (cart (step s e)))
  ∧ (∀ s n p, cartInvariant (cart s) → cartInvariant (cart (addItemToCart n p s)))
  ∧ (∀ s target s', handleCartControlsClick target s = Normal s' →
       cartInvariant (cart s) → cartInvariant (cart s'))
  ∧ (∀ s now localeDate,
       cartInvariant (cart (handleBuyAllItemsClick now localeDate s)))
  ∧ (∀ s, reachable s →
       cartInvariant (cart s) ∧ ∀ item, item ∈ cart s → quantity item ≠ 0%Z).
Proof.
  split_and!.
  - apply cartInvariant_step.
  - intros s n p. apply cartInvariant_addItemToCart.
  - intros s target s'. apply cartInvariant_controls.
  - intros s now localeDate. rewrite cart_checkout. apply cartInvariant_nil.
  - intros s Hreach. pose proof (cartInvariant_reachable s Hreach) as Hinv.
    split; [done|]. intros item Hin Hzero.
    destruct Hinv as [_ Hall]. rewrite Forall_forall in Hall.
    specialize (Hall item Hin). lia.
Qed.

Lemma reachable_run s es : reachable s → reachable (run s es).
Proof.
  revert s. induction es as [|e es IH]; intros s Hs; [done|].
  simpl. apply IH. by constructor.
Qed.

Lemma reachable_freshPage : reachable freshPage.
Proof. apply reachable_load. Qed.

Lemma cart_invariant_preserved_witness :
  cartInvariant
    (cart (run freshPage
             [AddToCartClick (js "Hoodie") 1200; AddToCartClick (js "Cap") 300;
              CartControlsClick (mkClickTarget ["decrease-quantity-btn"] (Int 0))]))
  ∧ cart (run freshPage
            [AddToCartClick (js "Hoodie") 1200; AddToCartClick (js "Cap") 300;
             CartControlsClick (mkClickTarget ["decrease-quantity-btn"] (Int 0))])
    = [mkLineItem (js "Cap") 300 1].
Proof.
  split; [|reflexivity].
  apply (proj1 cart_invariant_preserved
           (run freshPage [AddToCartClick (js "Hoodie") 1200; AddToCartClick (js "Cap") 300])
           (CartControlsClick (mkClickTarget ["decrease-quantity-btn"] (Int 0)))).
  closed_decision.
Defined.

(** ** Adding to the cart *)

(** C4: adding a name already in the cart raises the quantity of its
    (first) entry by 1 and appends nothing, every other entry staying where
    it was; adding a name that is not in the cart appends a line item of
    quantity 1 behind the others; adding the same name twice to an empty
    cart leaves one entry of quantity 2. *)
Theorem addItemToCart_merges_by_name n p s :
  (n ∈ name <$> cart s →
     ∃ i item,
       cart s !! i = Some item ∧ name item = n
       ∧ (∀ j item', cart s !! j = Some item' → j < i → name item' ≠ n)
       ∧ cart (addItemToCart n p s)
         = <[i := mkLineItem n (price item) (quantity item + 1)]> (cart s)
       ∧ length (cart (addItemToCart n p s)) = length (cart s)
       ∧ ∀ j, j ≠ i → cart (addItemToCart n p s) !! j = cart s !! j)
  ∧ (n ∉ name <$> cart s →
       cart (addItemToCart n p s) = cart s ++ [mkLineItem n p 1])
  ∧ cart (addItemToCart n p (addItemToCart n p (set_cart [] s)))
    = [mkLineItem n p 2].
Proof.
  split_and!.
  - intros Hin. rewrite cart_addItemToCart.
    destruct (findIndex n (cart s)) as [[i item]|] eqn:Hfind.
    + apply findIndex_Some in Hfind as (Hi & Hname & Hfirst).
      exists i, item. unfold incrQuantity. rewrite Hname.
      split_and!; try done.
      * by rewrite length_insert.
      * intros j Hj. by apply list_lookup_insert_ne.
    + by apply findIndex_None in Hfind.
  - intros Hnot. rewrite cart_addItemToCart.
    apply findIndex_None in Hnot. by rewrite Hnot.
  - assert (cart (addItemToCart n p (set_cart [] s)) = [mkLineItem n p 1])
      as Hfirst by (by rewrite cart_addItemToCart).
    rewrite cart_addItemToCart, Hfirst.
    assert (findIndex n [mkLineItem n p 1] = Some (0, mkLineItem n p 1)) as ->.
    { apply findIndex_Some. split_and!; [done..|]. intros j item' _ Hlt. lia. }
    done.
Qed.

Lemma addItemToCart_merges_by_name_witness :
  (∃ i item,
     cart (run freshPage [AddToCartClick (js "Cap") 300; AddToCartClick (js "Hoodie") 1200]) !! i
     = Some item
     ∧ name item = js "Hoodie"
     ∧ cart (addItemToCart (js "Hoodie") 1200
               (run freshPage [AddToCartClick (js "Cap") 300;
                               AddToCartClick (js "Hoodie") 1200]))
       = <[i := mkLineItem (js "Hoodie") (price item) (quantity item + 1)]>
           [mkLineItem (js "Cap") 300 1; mkLineItem (js "Hoodie") 1200 1])
  ∧ cart (addItemToCart (js "Socks") 99
            (run freshPage [AddToCartClick (js "Cap") 300; AddToCartClick (js "Hoodie") 1200]))
    = [mkLineItem (js "Cap") 300 1; mkLineItem (js "Hoodie") 1200 1; mkLineItem (js "Socks") 99 1].
Proof.
  split.
  - destruct (proj1 (addItemToCart_merges_by_name (js "Hoodie") 1200
                (run freshPage [AddToCartClick (js "Cap") 300;
                                AddToCartClick (js "Hoodie") 1200])))
      as (i & item & Hi & Hname & _ & Hcart & _).
    + closed_decision.
    + exists i, item. split_and!; [exact Hi|exact Hname|exact Hcart].
  - apply (proj1 (proj2 (addItemToCart_merges_by_name (js "Socks") 99
                (run freshPage [AddToCartClick (js "Cap") 300;
                                AddToCartClick (js "Hoodie") 1200])))).
    closed_decision.
Defined.

(** C9: adding a name already in the cart with whatever price raises the
    quantity of its entry and keeps the price stored there; the price given
    is dropped, no price in the cart changes, and so the entry keeps the
    price of the first add of that name. *)
Theorem addItemToCart_keeps_first_price n p s :
  (n ∈ name <$> cart s →
     ∃ i item,
       cart s !! i = Some item ∧ name item = n
       ∧ cart (addItemToCart n p s) !! i
         = Some (mkLineItem n (price item) (quantity item + 1))
       ∧ price <$> cart (addItemToCart n p s) = price <$> cart s)
  ∧ (∀ p0, n ∉ name <$> cart s →
       cart (addItemToCart n p (addItemToCart n p0 s))
       = cart s ++ [mkLineItem n p0 2]).
Proof.
  split.
  - intros Hin. rewrite cart_addItemToCart.
    destruct (findIndex n (cart s)) as [[i item]|] eqn:Hfind.
    + apply findIndex_Some in Hfind as (Hi & Hname & _).
      exists i, item. unfold incrQuantity. rewrite Hname.
      split_and!; try done.
      * apply list_lookup_insert_eq. by eapply lookup_lt_Some.
      * rewrite list_fmap_insert. simpl.
        apply list_insert_id. by rewrite list_lookup_fmap, Hi.
    + by apply findIndex_None in Hfind.
  - intros p0 Hnot. rewrite (cart_addItemToCart n p).
    rewrite (cart_addItemToCart n p0).
    pose proof Hnot as Hnone. apply findIndex_None in Hnone. rewrite Hnone.
    assert (findIndex n (cart s ++ [mkLineItem n p0 1])
            = Some (length (cart s), mkLineItem n p0 1)) as ->.
    { apply findIndex_Some. split_and!.
      - by rewrite lookup_app_r, Nat.sub_diag by lia.
      - done.
      - intros j item' Hj Hlt Hname. rewrite lookup_app_l in Hj by done.
        apply Hnot, list_elem_of_fmap. exists item'. split; [done|].
        by eapply list_elem_of_lookup_2. }
    unfold incrQuantity. simpl.
    replace (length (cart s)) with (length (cart s) + 0) at 1 by lia.
    by rewrite insert_app_r.
Qed.

Lemma addItemToCart_keeps_first_price_witness :
  cart (addItemToCart (js "Hoodie") 999 (addItemToCart (js "Hoodie") 1200 freshPage))
  = [mkLineItem (js "Hoodie") 1200 2].
Proof.
  apply (proj2 (addItemToCart_keeps_first_price (js "Hoodie") 999 freshPage) 1200%float).
  closed_decision.
Defined.

(** ** Quantity controls *)

(** C5: a click on the decrease button of a valid row lowers a quantity
    N > 1 to N - 1 and keeps the entry in place; on quantity 1 the entry is
    removed from the cart, the other entries keeping their order. *)
Theorem decrease_quantity_or_remove target s i item :
  contains target "increase-quantity-btn" = false →
  contains target "decrease-quantity-btn" = true →
  dataIndex target = Int (Z.of_nat i) →
  cart s !! i = Some item →
  ∃ s', handleCartControlsClick target s = Normal s'
    ∧ ((quantity item > 1)%Z →
         cart s' = <[i := mkLineItem (name item) (price item) (quantity item - 1)]> (cart s)
         ∧ cart s' !! i
           = Some (mkLineItem (name item) (price item) (quantity item - 1))
         ∧ length (cart s') = length (cart s))
    ∧ (quantity item = 1%Z →
         cart s' = delete i (cart s)
         ∧ S (length (cart s')) = length (cart s)
         ∧ (NoDup (name <$> cart s) → name item ∉ name <$> cart s')).
Proof.
  intros Hinc Hdec Hidx Hi.
  pose proof (lookup_lt_Some _ _ _ Hi) as Hlt.
  unfold handleCartControlsClick. rewrite Hinc, Hdec, Hidx.
  rewrite (at_index_nat _ _ _ Hi).
  case_bool_decide as Hq; eexists; (split; [reflexivity|]);
    rewrite cart_updateCartDisplay; simpl.
  - split; [|lia]. intros _. unfold decrQuantity. split_and!.
    + done.
    + by apply list_lookup_insert_eq.
    + by rewrite length_insert.
  - split; [lia|]. intros _. rewrite splice1_nat by done. split_and!.
    + done.
    + rewrite length_delete by eauto. lia.
    + intros Hnd Hin. rewrite list_fmap_delete in Hin.
      rewrite delete_take_drop in Hin.
      assert (name <$> cart s
              = take i (name <$> cart s) ++ name item :: drop (S i) (name <$> cart s))
        as Hsplit.
      { rewrite <-(take_drop_middle (name <$> cart s) i (name item)) at 1; [done|].
        by rewrite list_lookup_fmap, Hi. }
      rewrite Hsplit in Hnd. apply NoDup_app in Hnd as (_ & Hdisj & Hnd).
      apply NoDup_cons in Hnd as [Hnotin _].
      apply elem_of_app in Hin as [Hin|Hin]; [|done].
      apply (Hdisj _ Hin). by left.
Qed.

Lemma decrease_quantity_or_remove_witness :
  ∃ s',
    handleCartControlsClick (mkClickTarget ["decrease-quantity-btn"] (Int 0))
      (run freshPage [AddToCartClick (js "Hoodie") 1200; AddToCartClick (js "Hoodie") 1200])
    = Normal s'
    ∧ cart s' = [mkLineItem (js "Hoodie") 1200 1].
Proof.
  destruct (decrease_quantity_or_remove
              (mkClickTarget ["decrease-quantity-btn"] (Int 0))
              (run freshPage [AddToCartClick (js "Hoodie") 1200;
                              AddToCartClick (js "Hoodie") 1200])
              0 (mkLineItem (js "Hoodie") 1200 2))
    as (s' & Hrun & Hmany & _); [reflexivity..|].
  exists s'. split; [exact Hrun|]. apply Hmany. reflexivity.
Defined.

(** ** Strings *)

Lemma string_app_cons a s1 s2 : String a s1 +:+ s2 = String a (s1 +:+ s2).
Proof. reflexivity. Qed.

Lemma string_app_assoc s1 s2 s3 : (s1 +:+ s2) +:+ s3 = s1 +:+ (s2 +:+ s3).
Proof.
  induction s1 as [|a s1 IH]; [done|].
  by rewrite !string_app_cons, IH.
Qed.

Lemma js_String a s : js (String a s) = Ascii.N_of_ascii a :: js s.
Proof. reflexivity. Qed.

Lemma js_app s1 s2 : js (s1 +:+ s2) = js s1 ++ js s2.
Proof.
  induction s1 as [|a s1 IH]; [done|].
  by rewrite string_app_cons, !js_String, IH.
Qed.

Lemma js_length s : length (js s) = String.length s.
Proof.
  induction s as [|a s IH]; [done|]. rewrite js_String. simpl. by rewrite IH.
Qed.

Lemma sliceLast_app k (s1 s2 : jsstring) :
  length s2 = k → sliceLast k (s1 ++ s2) = s2.
Proof.
  intros Hlen. unfold sliceLast. rewrite length_app, Hlen.
  replace (length s1 + k - k) with (length s1) by lia.
  apply drop_app_length.
Qed.

Lemma sliceLast_length k (s : jsstring) :
  length (sliceLast k s) = length s `min` k.
Proof. unfold sliceLast. rewrite length_drop. lia. Qed.

Lemma sliceLast_short k (s : jsstring) : length s ≤ k → sliceLast k s = s.
Proof.
  intros Hlen. unfold sliceLast.
  by replace (length s - k) with 0 by lia.
Qed.

(** ** Decimal digits *)

Lemma pretty_N_go_app x s : pretty_N_go x s = pretty_N_go x "" +:+ s.
Proof.
  revert s. induction (N.lt_wf_0 x) as [x _ IH]; intros s.
  destruct (decide (x = 0)%N) as [->|Hx]; [done|].
  rewrite !(pretty_N_go_step x) by lia.
  assert (x `div` 10 < x)%N as Hlt by (apply N.div_lt; lia).
  rewrite (IH _ Hlt (String _ s)), (IH _ Hlt (String _ "")).
  by rewrite string_app_assoc.
Qed.

Lemma lastDigits_app k x s : lastDigits k x s = lastDigits k x "" +:+ s.
Proof.
  revert x s. induction k as [|k IH]; intros x s; [done|].
  simpl. rewrite IH, (IH _ (String _ "")). by rewrite string_app_assoc.
Qed.

Lemma lastDigits_length k x s :
  String.length (lastDigits k x s) = k + String.length s.
Proof.
  revert x s. induction k as [|k IH]; intros x s; [done|].
  simpl. rewrite IH. simpl. lia.
Qed.

Lemma pretty_N_go_lastDigits (k : nat) x s :
  k = 0 ∨ (10 ^ N.of_nat (k - 1) ≤ x)%N →
  pretty_N_go x s = pretty_N_go (x `div` 10 ^ N.of_nat k)%N (lastDigits k x s).
Proof.
  revert x s. induction k as [|k IH]; intros x s Hk.
  - simpl. by rewrite N.div_1_r.
  - destruct Hk as [Hk|Hk]; [lia|].
    assert (0 < x)%N as Hpos.
    { eapply N.lt_le_trans; [|exact Hk]. apply N.neq_0_lt_0, N.pow_nonzero. lia. }
    rewrite pretty_N_go_step by done. simpl lastDigits.
    rewrite (IH (x `div` 10)%N).
    + f_equal. rewrite N.Div0.div_div. f_equal.
      rewrite Nat2N.inj_succ, N.pow_succ_r'. done.
    + destruct k as [|k]; [by left|right].
      replace (S (S k) - 1) with (S k) in Hk by lia.
      replace (S k - 1) with k by lia.
      rewrite Nat2N.inj_succ, N.pow_succ_r' in Hk.
      apply N.div_le_lower_bound; [lia|done].
Qed.

Lemma lastDigits_mod k x s :
  lastDigits k (x `mod` 10 ^ N.of_nat k)%N s = lastDigits k x s.
Proof.
  revert x s. induction k as [|k IH]; intros x s; [done|].
  simpl lastDigits. rewrite Nat2N.inj_succ, N.pow_succ_r'.
  assert (10 ^ N.of_nat k ≠ 0)%N as Hpow by (apply N.pow_nonzero; lia).
  rewrite N.Div0.mod_mul_r.
  set (r := (x `mod` 10)%N). set (q := ((x `div` 10) `mod` 10 ^ N.of_nat k)%N).
  assert (r < 10)%N as Hr by (apply N.mod_lt; lia).
  assert (((r + 10 * q) `mod` 10)%N = r) as ->.
  { symmetry. apply (N.mod_unique _ _ q); [done|lia]. }
  assert (((r + 10 * q) `div` 10)%N = q) as ->.
  { symmetry. apply (N.div_unique _ _ _ r); [done|lia]. }
  unfold q. by rewrite IH.
Qed.

Lemma numberToString_pos now :
  (0 < now)%Z → numberToString now = js (pretty_N_go (Z.to_N now) "").
Proof.
  intros Hpos. destruct now as [|p|p]; [lia| |lia].
  unfold numberToString, pretty, pretty_Z, pretty, pretty_positive, pretty, pretty_N.
  by rewrite decide_False by done.
Qed.

Lemma newOrderId_lastDigits now :
  (100000 ≤ now)%Z →
  newOrderId now = js (lastDigits 6 (Z.to_N now `mod` 1000000)%N "").
Proof.
  intros Hnow. unfold newOrderId. rewrite numberToString_pos by lia.
  rewrite (pretty_N_go_lastDigits 6) by (right; simpl; lia).
  rewrite pretty_N_go_app, js_app, sliceLast_app
    by (by rewrite js_length, lastDigits_length).
  f_equal. symmetry. apply (lastDigits_mod 6).
Qed.

Lemma newOrderId_period now :
  (100000 ≤ now)%Z → newOrderId (now + 1000000) = newOrderId now.
Proof.
  intros Hnow. rewrite !newOrderId_lastDigits by lia. do 2 f_equal.
  rewrite Z2N.inj_add by lia.
  change (Z.to_N 1000000) with (1 * 1000000)%N.
  by rewrite N.Div0.mod_add.
Qed.

Lemma newOrderId_digits now :
  (100000 ≤ now)%Z →
  newOrderId now
  = [digitAt 5 now; digitAt 4 now; digitAt 3 now;
     digitAt 2 now; digitAt 1 now; digitAt 0 now].
Proof.
  intros Hnow. rewrite newOrderId_lastDigits by done.
  rewrite (lastDigits_mod 6). simpl lastDigits. unfold digitAt, js. simpl fmap.
  rewrite !N.Div0.div_div.
  assert (∀ d, (0 < d)%Z →
            ((Z.to_N now `div` Z.to_N d) `mod` 10)%N = Z.to_N ((now `div` d) `mod` 10))
    as Hdigit.
  { intros d Hd. rewrite Z2N.inj_mod, Z2N.inj_div; (done || lia || idtac).
    apply Z.div_pos; lia. }
  rewrite <-(N.div_1_r (Z.to_N now)) at 6.
  repeat f_equal.
  all: match goal with
       | |- ((_ `div` ?d) `mod` 10)%N = _ =>
           change d with (Z.to_N (Z.of_N d)); rewrite Hdigit by done; done
       end.
Qed.

Lemma orderIds_after_two_checkouts now d1 d2 n p s :
  cart s ≠ [] →
  orderId <$> orders (handleBuyAllItemsClick (now + 1000000) d2
                        (addItemToCart n p (handleBuyAllItemsClick now d1 s)))
  = (orderId <$> orders s) ++ [newOrderId now; newOrderId (now + 1000000)].
Proof.
  intros Hne. rewrite orders_checkout.
  - rewrite orders_addItemToCart, orders_checkout by done.
    by rewrite !fmap_app, <-app_assoc.
  - rewrite cart_addItemToCart, cart_checkout. done.
Qed.

(** C7: the order id of a checkout is the decimal string of the timestamp
    cut to its last 6 characters.  From timestamp 100000 on these are its
    last six decimal digits; the id has 6 characters whenever the decimal
    string has at least 6, and is the whole string otherwise.  Ids repeat:
    two checkouts 1000000 ms apart store two orders with the same id. *)
Theorem order_id_last_six_digits :
  (∀ now localeDate s, cart s ≠ [] →
     ∃ o, last (orders (handleBuyAllItemsClick now localeDate s)) = Some o
          ∧ orderId o = sliceLast 6 (numberToString now))
  ∧ (∀ now, (100000 ≤ now)%Z →
       newOrderId now
       = [digitAt 5 now; digitAt 4 now; digitAt 3 now;
          digitAt 2 now; digitAt 1 now; digitAt 0 now])
  ∧ (∀ now, 6 ≤ length (numberToString now) →
       length (newOrderId now) = 6)
  ∧ (∀ now, length (numberToString now) ≤ 6 →
       newOrderId now = numberToString now)
  ∧ (∀ now d1 d2 n p s, (100000 ≤ now)%Z → cart s ≠ [] →
       orderId <$> orders (handleBuyAllItemsClick (now + 1000000) d2
                             (addItemToCart n p (handleBuyAllItemsClick now d1 s)))
       = (orderId <$> orders s) ++ [newOrderId now; newOrderId now]).
Proof.
  split_and!.
  - intros now localeDate s Hne. eexists. rewrite orders_checkout by done.
    rewrite last_snoc. done.
  - apply newOrderId_digits.
  - intros now Hlen. unfold newOrderId. rewrite sliceLast_length. lia.
  - intros now Hlen. by apply sliceLast_short.
  - intros now d1 d2 n p s Hnow Hne.
    rewrite orderIds_after_two_checkouts by done.
    by rewrite newOrderId_period.
Qed.

Lemma order_id_last_six_digits_witness :
  newOrderId 1700000123456 = js "123456"
  ∧ length (newOrderId 1700000123456) = 6
  ∧ orderId <$> orders (handleBuyAllItemsClick (1700000123456 + 1000000) (js "later")
                          (addItemToCart (js "Cap") 300
                             (handleBuyAllItemsClick 1700000123456 (js "sooner")
                                (addItemToCart (js "Hoodie") 1200 freshPage))))
    = [js "123456"; js "123456"].
Proof.
  split_and!.
  - rewrite (proj1 (proj2 order_id_last_six_digits) 1700000123456%Z); [|done].
    reflexivity.
  - apply (proj1 (proj2 (proj2 order_id_last_six_digits)) 1700000123456%Z).
    vm_compute. lia.
  - rewrite (proj2 (proj2 (proj2 (proj2 order_id_last_six_digits)))
               1700000123456%Z (js "sooner") (js "later") (js "Cap") 300%float
               (addItemToCart (js "Hoodie") 1200 freshPage)); [|done..].
    rewrite (proj1 (proj2 order_id_last_six_digits) 1700000123456%Z); [|done].
    reflexivity.
Defined.

(** ** The order store only grows *)

Lemma orders_controls target s s' :
  handleCartControlsClick target s = Normal s' → orders s' = orders s.
Proof.
  unfold handleCartControlsClick. intros Hrun.
  repeat case_match; simplify_eq; by autorewrite with frame.
Qed.

Lemma orders_trackOrderBtnClick s : orders (trackOrderBtnClick s) = orders s.
Proof. unfold trackOrderBtnClick. by case_bool_decide. Qed.

Lemma orders_runCallback cb s : orders (runCallback cb s) = orders s.
Proof. destruct cb as [|n [o|]]; done. Qed.

Lemma orders_step s e : orders s `prefix_of` orders (step s e).
Proof.
  unfold step. destruct e; simpl; try reflexivity.
  - by rewrite orders_addItemToCart.
  - by rewrite orders_addItemToCart.
  - destruct (decide (cart s = [])) as [Hempty|Hne].
    + by rewrite handleBuyAllItemsClick_empty.
    + rewrite orders_checkout by done. by apply prefix_app_r.
  - destruct (handleCartControlsClick target s) as [s'|] eqn:Hrun; [|done].
    by rewrite (orders_controls _ _ _ Hrun).
  - by rewrite orders_trackOrderBtnClick.
  - destruct (timers s !! i) as [t|]; [|done]. by rewrite orders_runCallback.
Qed.

Lemma orders_run s es : orders s `prefix_of` orders (run s es).
Proof.
  revert s. induction es as [|e es IH]; intros s; [done|].
  simpl. etrans; [apply orders_step|apply IH].
Qed.

Lemma findOrder_Some id os i o :
  findOrder id os = Some (i, o) ↔
  os !! i = Some o ∧ orderId o = id
  ∧ ∀ j o', os !! j = Some o' → j < i → orderId o' ≠ id.
Proof. unfold findOrder. by rewrite list_find_Some. Qed.

Lemma findOrder_None id os :
  findOrder id os = None ↔ Forall (λ o, orderId o ≠ id) os.
Proof. unfold findOrder. by rewrite list_find_None. Qed.

Lemma findOrder_prefix id os os' r :
  os `prefix_of` os' → findOrder id os = Some r → findOrder id os' = Some r.
Proof.
  intros [ext ->] Hfind. destruct r as [i o]. unfold findOrder in *.
  by apply list_find_app_l.
Qed.

Lemma findOrder_snoc_fresh id os o :
  Forall (λ o', orderId o' ≠ id) os → orderId o = id →
  findOrder id (os ++ [o]) = Some (length os, o).
Proof.
  intros Hfresh Hid. apply findOrder_Some. split_and!.
  - by rewrite lookup_app_r, Nat.sub_diag by lia.
  - done.
  - intros j o' Hj Hlt. rewrite lookup_app_l in Hj by done.
    rewrite Forall_lookup in Hfresh. by eapply Hfresh.
Qed.

Lemma findOrder_snoc_taken id os o r :
  findOrder id os = Some r → findOrder id (os ++ [o]) = Some r.
Proof. apply findOrder_prefix. by apply prefix_app_r. Qed.

(** ** Tracking an order through the page *)

Lemma trimStart_noSpace s : noSpace s = true → trimStart s = s.
Proof.
  destruct s as [|u s]; [done|]. simpl. intros [Hu _]%andb_prop.
  by destruct (isWhiteSpace u).
Qed.

Lemma trimEnd_noSpace s : noSpace s = true → trimEnd s = s.
Proof.
  induction s as [|u s IH]; [done|]. simpl. intros [Hu Hs]%andb_prop.
  rewrite (IH Hs). destruct s as [|u' s]; [|done].
  by destruct (isWhiteSpace u).
Qed.

Lemma trim_noSpace s : noSpace s = true → trim s = s.
Proof.
  intros Hs. unfold trim. rewrite trimStart_noSpace by done.
  by apply trimEnd_noSpace.
Qed.

Lemma trimStart_whiteSpace s : forallb isWhiteSpace s = true → trimStart s = [].
Proof.
  induction s as [|u s IH]; [done|]. simpl. intros [Hu Hs]%andb_prop.
  rewrite Hu. by apply IH.
Qed.

Lemma trimStart_nil s : trimStart s = [] → forallb isWhiteSpace s = true.
Proof.
  induction s as [|u s IH]; [done|]. simpl.
  destruct (isWhiteSpace u); [done|discriminate].
Qed.

Lemma trimEnd_nil s : trimEnd s = [] → forallb isWhiteSpace s = true.
Proof.
  induction s as [|u s IH]; [done|]. simpl.
  destruct (trimEnd s); [|discriminate].
  destruct (isWhiteSpace u); [|discriminate]. intros _. by apply IH.
Qed.

Lemma trimStart_head s :
  match trimStart s with
  | [] => True
  | u :: _ => isWhiteSpace u = false
  end.
Proof.
  induction s as [|u s IH]; [done|]. simpl.
  by destruct (isWhiteSpace u) eqn:Hu; [|simpl].
Qed.

(** The trimmed string is empty exactly when the string is empty or holds
    white space only. *)
Lemma trim_nil s : trim s = [] ↔ forallb isWhiteSpace s = true.
Proof.
  unfold trim. split.
  - intros Hnil. apply trimEnd_nil in Hnil. apply trimStart_nil.
    pose proof (trimStart_head s) as Hhead.
    destruct (trimStart s) as [|u r]; [done|].
    simpl in Hnil. apply andb_prop in Hnil as [Hu _]. congruence.
  - intros Hs. by rewrite trimStart_whiteSpace.
Qed.

Lemma noSpace_app s1 s2 : noSpace (s1 ++ s2) = noSpace s1 && noSpace s2.
Proof. apply forallb_app. Qed.

Lemma noSpace_drop n s : noSpace s = true → noSpace (drop n s) = true.
Proof.
  revert s. induction n as [|n IH]; intros [|c s] Hs; simpl; try done.
  simpl in Hs. apply andb_prop in Hs as [_ Hs]. by apply IH.
Qed.

Lemma noSpace_pretty_N_char x :
  isWhiteSpace (Ascii.N_of_ascii (pretty_N_char x)) = false.
Proof. unfold pretty_N_char. by repeat case_match. Qed.

Lemma noSpace_pretty_N_go x s :
  noSpace (js s) = true → noSpace (js (pretty_N_go x s)) = true.
Proof.
  revert s. induction (N.lt_wf_0 x) as [x _ IH]; intros s Hs.
  destruct (decide (x = 0)%N) as [->|Hx]; [done|].
  rewrite pretty_N_go_step by lia. apply IH.
  - apply N.div_lt; lia.
  - rewrite js_String. simpl. by rewrite noSpace_pretty_N_char.
Qed.

Lemma noSpace_numberToString z : noSpace (numberToString z) = true.
Proof.
  unfold numberToString, pretty, pretty_Z, pretty, pretty_positive, pretty, pretty_N.
  destruct z as [|p|p]; [done|..].
  - rewrite decide_False by done. by apply noSpace_pretty_N_go.
  - rewrite decide_False by done.
    rewrite js_app, noSpace_app. rewrite noSpace_pretty_N_go by done. done.
Qed.

Lemma numberToString_nonempty z : numberToString z ≠ [].
Proof.
  unfold numberToString, pretty, pretty_Z, pretty, pretty_positive, pretty, pretty_N.
  destruct z as [|p|p]; [done|..]; rewrite decide_False by done.
  - rewrite pretty_N_go_step by lia. rewrite pretty_N_go_app, js_app.
    intros Heq. apply (f_equal length) in Heq.
    rewrite length_app, !js_length in Heq. simpl in Heq. lia.
  - done.
Qed.

Lemma trim_newOrderId now : trim (newOrderId now) = newOrderId now.
Proof.
  apply trim_noSpace. unfold newOrderId, sliceLast.
  apply noSpace_drop, noSpace_numberToString.
Qed.

Lemma newOrderId_nonempty now : newOrderId now ≠ [].
Proof.
  unfold newOrderId. intros Heq. apply (f_equal length) in Heq.
  rewrite sliceLast_length in Heq. simpl in Heq.
  pose proof (numberToString_nonempty now) as Hne.
  destruct (numberToString now); [done|]. simpl in Heq. lia.
Qed.

Lemma run_lookupEvents id s :
  trim id = id → id ≠ [] →
  run s (lookupEvents id s)
  = set_tracker (trackingOutcome id (snd <$> findOrder id (orders s))) s.
Proof.
  intros Htrim Hne. destruct s as [c os v m conf t ts].
  unfold lookupEvents, run, step. simpl.
  unfold trackOrderBtnClick. simpl. rewrite Htrim.
  rewrite bool_decide_eq_true_2 by done.
  unfold trackOrder, setTimeout. simpl.
  rewrite lookup_app_r, Nat.sub_diag by lia. simpl.
  rewrite delete_middle, app_nil_r.
  by destruct (findOrder id os) as [[i o]|].
Qed.

Lemma lookup_fresh_id s now localeDate :
  cart s ≠ [] →
  Forall (λ o, orderId o ≠ newOrderId now) (orders s) →
  findOrder (newOrderId now) (orders (handleBuyAllItemsClick now localeDate s))
  = Some (length (orders s), orderOf now localeDate s).
Proof.
  intros Hne Hfresh. rewrite orders_checkout by done.
  by apply findOrder_snoc_fresh.
Qed.

(** C6, as the code has it: when no order already stored carries the id the
    checkout generates, looking that id up finds the order just stored, and
    the tracker shows its id, date, items and total; looking up an id that
    no stored order carries finds nothing, schedules the "Not Found"
    message and throws nothing. *)
Theorem lookup_after_checkout_fresh_id :
  (∀ s now localeDate,
     cart s ≠ [] →
     Forall (λ o, orderId o ≠ newOrderId now) (orders s) →
     lookupFindsNewOrder now localeDate s
     ∧ tracker (run (handleBuyAllItemsClick now localeDate s)
                    (lookupEvents (newOrderId now)
                       (handleBuyAllItemsClick now localeDate s)))
       = mkTracker (newOrderId now)
           (StatusDetails (newOrderId now) localeDate
              (join (js ", ") (itemLabel <$> cart s))
              (cartTotal (cart s)))
           true false)
  ∧ (∀ s id,
       Forall (λ o, orderId o ≠ id) (orders s) →
       findOrder id (orders s) = None
       ∧ dispatch s TrackOrderClick = Normal (trackOrderBtnClick s)
       ∧ timers (trackOrder id s)
         = timers s ++ [mkTimer 1500 (ShowTrackingResult id None)]
       ∧ (trim id = id → id ≠ [] →
          tracker (run s (lookupEvents id s))
          = mkTracker id (StatusText (notFoundText id)) false true)).
Proof.
  split.
  - intros s now localeDate Hne Hfresh.
    pose proof (lookup_fresh_id s now localeDate Hne Hfresh) as Hfind.
    split.
    + unfold lookupFindsNewOrder. by rewrite Hfind.
    + rewrite run_lookupEvents
        by auto using trim_newOrderId, newOrderId_nonempty.
      by rewrite Hfind.
  - intros s id Hfresh.
    pose proof (proj2 (findOrder_None id (orders s)) Hfresh) as Hnone.
    split_and!; [done|done| |].
    + unfold trackOrder, setTimeout. simpl. by rewrite Hnone.
    + intros Htrim Hne. rewrite run_lookupEvents by done. by rewrite Hnone.
Qed.

Lemma lookup_after_checkout_fresh_id_witness :
  tracker (run (handleBuyAllItemsClick 1700000123456 (js "14/11/2023, 22:15:23")
                  (run freshPage [AddToCartClick (js "Hoodie") 1200;
                                  AddToCartClick (js "Hoodie") 1200]))
               (lookupEvents (js "123456")
                  (handleBuyAllItemsClick 1700000123456 (js "14/11/2023, 22:15:23")
                     (run freshPage [AddToCartClick (js "Hoodie") 1200;
                                     AddToCartClick (js "Hoodie") 1200]))))
  = mkTracker (js "123456")
      (StatusDetails (js "123456") (js "14/11/2023, 22:15:23") (js "Hoodie (x2)") 2400)
      true false
  ∧ tracker (run freshPage (lookupEvents (js "000000") freshPage))
    = mkTracker (js "000000")
        (StatusText (js "Order 000000: Not Found. Please check the number and try again."))
        false true.
Proof.
  split.
  - apply (proj1 lookup_after_checkout_fresh_id
             (run freshPage [AddToCartClick (js "Hoodie") 1200;
                             AddToCartClick (js "Hoodie") 1200])
             1700000123456%Z (js "14/11/2023, 22:15:23")).
    + done.
    + constructor.
  - apply (proj2 lookup_after_checkout_fresh_id freshPage (js "000000")).
    + constructor.
    + reflexivity.
    + done.
Defined.

Lemma reachable_hoodieBought : reachable hoodieBought.
Proof. apply reachable_run, reachable_freshPage. Qed.

(** C6, as stated, fails: with a hoodie order of id "123456" in the store,
    a checkout of a cap 1000 s later generates "123456" again, and looking
    that id up shows the hoodie order, not the order just placed. *)
Lemma lookup_after_checkout_counterexample :
  reachable hoodieBought
  ∧ cart hoodieBought = [mkLineItem (js "Cap") 300 1]
  ∧ newOrderId 1700001123456 = js "123456"
  ∧ ¬ lookupFindsNewOrder 1700001123456 (js "14/11/2023, 22:32:03") hoodieBought
  ∧ tracker (run (handleBuyAllItemsClick 1700001123456 (js "14/11/2023, 22:32:03")
                    hoodieBought)
                 (lookupEvents (js "123456")
                    (handleBuyAllItemsClick 1700001123456 (js "14/11/2023, 22:32:03")
                       hoodieBought)))
    = mkTracker (js "123456")
        (StatusDetails (js "123456") (js "14/11/2023, 22:15:23") (js "Hoodie (x1)") 1200)
        true false.
Proof.
  split_and!.
  - apply reachable_hoodieBought.
  - reflexivity.
  - reflexivity.
  - unfold lookupFindsNewOrder. vm_compute. discriminate.
  - reflexivity.
Qed.

(** ** Submitting an empty order number *)

(** C8: a click on the track button while the text field is empty (or holds
    only white space, which the handler trims away) shows the error message
    in the status line and marks it as an error, and does nothing else: the
    text field keeps its content, no closure is scheduled, the cart, the
    order store, the cart panel and the panels' visibility are as before,
    and what is shown and scheduled is the same whatever the order store
    holds, which is never searched. *)
Theorem empty_lookup_shows_error s :
  forallb isWhiteSpace (orderNumberInput (tracker s)) = true →
  ∃ s',
    dispatch s TrackOrderClick = Normal s'
    ∧ status (tracker s') = StatusText (js "Please enter a valid order number.")
    ∧ statusError (tracker s') = true
    ∧ statusSuccess (tracker s') = statusSuccess (tracker s)
    ∧ orderNumberInput (tracker s') = orderNumberInput (tracker s)
    ∧ timers s' = timers s
    ∧ cart s' = cart s
    ∧ orders s' = orders s
    ∧ view s' = view s
    ∧ modals s' = modals s
    ∧ confirmationOrderId s' = confirmationOrderId s
    ∧ ∀ os, ∃ s'',
        dispatch (set_orders os s) TrackOrderClick = Normal s''
        ∧ tracker s'' = tracker s'
        ∧ timers s'' = timers s'
        ∧ orders s'' = os.
Proof.
  intros Hempty. apply trim_nil in Hempty.
  exists (trackOrderBtnClick s). split; [done|].
  unfold trackOrderBtnClick. rewrite Hempty.
  rewrite bool_decide_eq_false_2 by (by intros []).
  split_and!; try done.
  intros os. eexists. split; [done|].
  unfold trackOrderBtnClick. destruct s as [c os0 v m conf t ts].
  simpl in *. rewrite Hempty.
  by rewrite bool_decide_eq_false_2 by (by intros []).
Qed.

Lemma empty_lookup_shows_error_witness :
  (∃ s',
     dispatch hoodieBought TrackOrderClick = Normal s'
     ∧ status (tracker s') = StatusText (js "Please enter a valid order number.")
     ∧ statusError (tracker s') = true
     ∧ timers s' = timers hoodieBought)
  ∧ (∃ s',
       dispatch (step freshPage (TypeOrderNumber [160; 32; 9; 65279]%N))
         TrackOrderClick = Normal s'
       ∧ status (tracker s')
         = StatusText (js "Please enter a valid order number.")
       ∧ statusError (tracker s') = true
       ∧ timers s' = []).
Proof.
  split.
  - destruct (empty_lookup_shows_error hoodieBought)
      as (s' & Hstep & Hstatus & Herror & _ & _ & Htimers & _); [reflexivity|].
    exists s'. split_and!; [exact Hstep|exact Hstatus|exact Herror|exact Htimers].
  - destruct (empty_lookup_shows_error
                (step freshPage (TypeOrderNumber [160; 32; 9; 65279]%N)))
      as (s' & Hstep & Hstatus & Herror & _ & _ & Htimers & _); [reflexivity|].
    exists s'. split_and!; [exact Hstep|exact Hstatus|exact Herror|exact Htimers].
Defined.

(** ** Lookup finds the earliest order *)

Lemma findOrder_after_checkout id s now localeDate :
  cart s ≠ [] → newOrderId now = id →
  ∃ i o,
    findOrder id (orders (handleBuyAllItemsClick now localeDate s)) = Some (i, o)
    ∧ i ≤ length (orders s)
    ∧ (Forall (λ o', orderId o' ≠ id) (orders s) →
       i = length (orders s) ∧ o = orderOf now localeDate s).
Proof.
  intros Hne Hid. rewrite orders_checkout by done.
  destruct (findOrder id (orders s)) as [[i o]|] eqn:Hfind.
  - exists i, o. split_and!.
    + by apply findOrder_snoc_taken.
    + apply findOrder_Some in Hfind as (Hi & _ & _).
      apply lookup_lt_Some in Hi. lia.
    + intros Hfresh. apply findOrder_None in Hfresh. congruence.
  - apply findOrder_None in Hfind.
    exists (length (orders s)), (orderOf now localeDate s). split_and!.
    + apply findOrder_snoc_fresh; [done|]. by rewrite <-Hid.
    + done.
    + done.
Qed.

(** C10: lookup returns the first order, in append order, whose id equals
    the id asked for.  So when two checkouts generate the same id, every
    later lookup of that id answers an order stored no later than the older
    of the two (the older one itself when the id was new then), and never
    the newer one, which sits further down the store. *)
Theorem lookup_returns_earliest_order :
  (∀ id os i o,
     findOrder id os = Some (i, o) ↔
     os !! i = Some o ∧ orderId o = id
     ∧ ∀ j o', os !! j = Some o' → j < i → orderId o' ≠ id)
  ∧ (∀ id s,
       timers (trackOrder id s)
       = timers s
         ++ [mkTimer 1500 (ShowTrackingResult id (snd <$> findOrder id (orders s)))])
  ∧ (∀ s t1 d1 es t2 d2 es',
       let s1 := handleBuyAllItemsClick t1 d1 s in
       let s2 := run s1 es in
       let s3 := handleBuyAllItemsClick t2 d2 s2 in
       let s4 := run s3 es' in
       cart s ≠ [] → cart s2 ≠ [] → newOrderId t2 = newOrderId t1 →
       ∃ i o,
         findOrder (newOrderId t1) (orders s4) = Some (i, o)
         ∧ i ≤ length (orders s)
         ∧ length (orders s) < length (orders s2)
         ∧ orders s4 !! length (orders s2) = Some (orderOf t2 d2 s2)
         ∧ (Forall (λ o', orderId o' ≠ newOrderId t1) (orders s) →
            i = length (orders s) ∧ o = orderOf t1 d1 s)).
Proof.
  split_and!; [apply findOrder_Some|done|].
  intros s t1 d1 es t2 d2 es' s1 s2 s3 s4 Hne Hne2 Hid.
  destruct (findOrder_after_checkout (newOrderId t1) s t1 d1 Hne eq_refl)
    as (i & o & Hfind & Hle & Hfresh).
  assert (orders s1 `prefix_of` orders s2) as H12 by apply orders_run.
  assert (orders s3 = orders s2 ++ [orderOf t2 d2 s2]) as H3
    by by apply orders_checkout.
  assert (orders s3 `prefix_of` orders s4) as H34 by apply orders_run.
  assert (length (orders s1) = S (length (orders s))) as Hlen1.
  { unfold s1. rewrite orders_checkout by done.
    rewrite length_app. simpl. lia. }
  exists i, o. split_and!.
  - eapply findOrder_prefix; [exact H34|]. rewrite H3.
    apply findOrder_snoc_taken. by eapply findOrder_prefix.
  - done.
  - apply prefix_length in H12. lia.
  - eapply prefix_lookup_Some; [|exact H34].
    rewrite H3. by rewrite lookup_app_r, Nat.sub_diag by lia.
  - done.
Qed.

Lemma lookup_returns_earliest_order_witness :
  ∃ i o,
    findOrder (js "123456")
      (orders (run (handleBuyAllItemsClick 1700001123456 (js "14/11/2023, 22:32:03")
                      (run (handleBuyAllItemsClick 1700000123456 (js "14/11/2023, 22:15:23")
                              (addItemToCart (js "Hoodie") 1200 freshPage))
                           [AddToCartClick (js "Cap") 300]))
                   [AddToCartClick (js "Socks") 99]))
    = Some (i, o)
    ∧ i = 0
    ∧ o = mkOrder (js "123456") [mkLineItem (js "Hoodie") 1200 1] 1200 (js "14/11/2023, 22:15:23").
Proof.
  destruct (proj2 (proj2 lookup_returns_earliest_order)
              (addItemToCart (js "Hoodie") 1200 freshPage)
              1700000123456%Z (js "14/11/2023, 22:15:23") [AddToCartClick (js "Cap") 300]
              1700001123456%Z (js "14/11/2023, 22:32:03") [AddToCartClick (js "Socks") 99])
    as (i & o & Hfind & _ & _ & _ & Hfresh); [done..|].
  exists i, o. split; [exact Hfind|]. apply Hfresh. constructor.
Defined.

(** ** The cart panel follows the cart *)

Section View.
Lemma viewInSync_updateCartDisplay s : viewInSync (updateCartDisplay s).
Proof.
  unfold viewInSync, updateCartDisplay.
  case_bool_decide as Hlen; simpl.
  - destruct (cart s); [done|]. simpl in Hlen. lia.
  - destruct (cart s); [done|]. by rewrite bool_decide_eq_false_2.
Qed.

Lemma viewInSync_ext s s' :
  cart s' = cart s → view s' = view s → viewInSync s → viewInSync s'.
Proof. unfold viewInSync. by intros -> ->. Qed.

Lemma viewInSync_controls target s s' :
  handleCartControlsClick target s = Normal s' → viewInSync s'.
Proof.
  unfold handleCartControlsClick. intros Hrun.
  repeat case_match; simplify_eq; apply viewInSync_updateCartDisplay.
Qed.

Lemma viewInSync_checkout now localeDate s :
  viewInSync s → viewInSync (handleBuyAllItemsClick now localeDate s).
Proof.
  intros Hsync. unfold handleBuyAllItemsClick. case_bool_decide; [|done].
  eapply viewInSync_ext; [..|apply viewInSync_updateCartDisplay]; done.
Qed.

Lemma viewInSync_step s e : viewInSync s → viewInSync (step s e).
Proof.
  intros Hsync. unfold step. destruct e; simpl; try done.
  - apply viewInSync_updateCartDisplay.
  - eapply viewInSync_ext; [..|apply viewInSync_updateCartDisplay]; done.
  - by apply viewInSync_checkout.
  - destruct (handleCartControlsClick target s) as [s'|] eqn:Hrun; [|done].
    by eapply viewInSync_controls.
  - unfold trackOrderBtnClick. by case_bool_decide.
  - destruct (timers s !! i) as [[d [|n [o|]]]|]; done.
Qed.

Lemma viewInSync_reachable s : reachable s → viewInSync s.
Proof.
  induction 1 as [v m c t | s e _ IH]; [done|]. by apply viewInSync_step.
Qed.

Lemma length_renderRows c : length (renderRows c) = length c.
Proof. apply length_imap. Qed.

Lemma lookup_renderRows c i :
  renderRows c !! i
  = (λ item, mkRow (name item) (price item) i (quantity item)) <$> c !! i.
Proof. apply list_lookup_imap. Qed.

(** The buttons of the rendered rows carry exactly the valid indices. *)
Corollary rendered_indices_valid s i :
  reachable s → i < length (rows (view s)) ↔ is_Some (cart s !! i).
Proof.
  intros (-> & _ & _)%viewInSync_reachable.
  by rewrite length_renderRows, lookup_lt_is_Some.
Qed.

(** The total of a stored order is the total the cart panel showed. *)
Corollary checkout_total_is_displayed_total now localeDate s :
  reachable s → total (orderOf now localeDate s) = cartTotalText (view s).
Proof. by intros (_ & -> & _)%viewInSync_reachable. Qed.
End View.

(** ** Checkout stores the cart *)

(** C1: checkout on a non-empty cart appends exactly one order to the order
    store; its items are the cart as it was, its total is the sum of
    price × quantity over those entries, a sum of JS numbers taken in cart
    order, which in a reachable state is the total the cart panel showed
    before the checkout; and the cart is empty afterwards. *)
Theorem checkout_nonempty_appends_order now localeDate s :
  cart s ≠ [] →
  ∃ o,
    orders (handleBuyAllItemsClick now localeDate s) = orders s ++ [o]
    ∧ items o = cart s
    ∧ total o = sumPriceQuantity (cart s)
    ∧ (reachable s → total o = cartTotalText (view s))
    ∧ orderId o = newOrderId now
    ∧ date o = localeDate
    ∧ cart (handleBuyAllItemsClick now localeDate s) = [].
Proof.
  intros Hne.
  exists (mkOrder (newOrderId now) (cart s) (cartTotal (cart s)) localeDate).
  split_and!; simpl; auto using orders_checkout, cartTotal_sum, cart_checkout.
  by intros (_ & -> & _)%viewInSync_reachable.
Qed.

Lemma checkout_nonempty_appends_order_witness :
  ∃ o,
    orders (handleBuyAllItemsClick 1700000123456 (js "14/11/2023, 22:15:23")
              (run freshPage [AddToCartClick (js "Tee") 0.1;
                              AddToCartClick (js "Socks") 0.2;
                              AddToCartClick (js "Cap") 0.3]))
    = [o]
    ∧ items o = [mkLineItem (js "Tee") 0.1 1; mkLineItem (js "Socks") 0.2 1;
                 mkLineItem (js "Cap") 0.3 1]
    ∧ total o = 0.6000000000000001%float.
Proof.
  destruct (checkout_nonempty_appends_order 1700000123456
              (js "14/11/2023, 22:15:23")
              (run freshPage [AddToCartClick (js "Tee") 0.1;
                              AddToCartClick (js "Socks") 0.2;
                              AddToCartClick (js "Cap") 0.3]))
    as (o & Ho & Hitems & Htotal & _); [done|].
  exists o. split_and!; [exact Ho|exact Hitems|exact Htotal].
Defined.

(** The sum is one of JS numbers: it depends on the order of the entries,
    and a quantity times a price is rounded. *)
Example total_in_cart_order :
  sumPriceQuantity [mkLineItem (js "Tee") 0.1 1; mkLineItem (js "Socks") 0.2 1;
                    mkLineItem (js "Cap") 0.3 1] = 0.6000000000000001%float
  ∧ sumPriceQuantity [mkLineItem (js "Cap") 0.3 1; mkLineItem (js "Socks") 0.2 1;
                      mkLineItem (js "Tee") 0.1 1] = 0.6%float
  ∧ sumPriceQuantity [mkLineItem (js "Tee") 0.1 3] = 0.30000000000000004%float.
Proof. by vm_compute. Qed.

(** ** The scenario of the specification, run on the page *)

Example scenario_hoodie :
  let s1 := step freshPage (AddToCartClick (js "Hoodie") 1200) in
  let s2 := step s1 (AddToCartClick (js "Hoodie") 1200) in
  let s3 := step s2 (BuyAllItemsClick 1700000123456 (js "14/11/2023, 22:15:23")) in
  cart s1 = [mkLineItem (js "Hoodie") 1200 1]
  ∧ cart s2 = [mkLineItem (js "Hoodie") 1200 2]
  ∧ cartTotalText (view s2) = 2400%float
  ∧ orders s3 = [mkOrder (js "123456") [mkLineItem (js "Hoodie") 1200 2] 2400
                         (js "14/11/2023, 22:15:23")]
  ∧ cart s3 = []
  ∧ confirmationOrderId s3 = Some (js "123456")
  ∧ status (tracker (run s3 (lookupEvents (js "123456") s3)))
    = StatusDetails (js "123456") (js "14/11/2023, 22:15:23") (js "Hoodie (x2)") 2400
  ∧ status (tracker (run s3 (lookupEvents (js "000000") s3)))
    = StatusText (js "Order 000000: Not Found. Please check the number and try again.").
Proof. by vm_compute. Qed.

(** The badge is refreshed only while the cart has entries, so it keeps the
    last count once the cart is emptied. *)
Example badge_after_checkout :
  let s := run freshPage [AddToCartClick (js "Hoodie") 1200;
                          BuyAllItemsClick 1700000123456 (js "14/11/2023, 22:15:23")] in
  cart s = [] ∧ cartCountText (view s) = 1%Z ∧ cartCountShown (view s) = true.
Proof. by vm_compute. Qed.

(** ** Sums over a cart *)

Section Sums.
Variable f : LineItem → Z.

Lemma sumZ_app c1 c2 : sumZ f (c1 ++ c2) = (sumZ f c1 + sumZ f c2)%Z.
Proof. induction c1 as [|x c1 IH]; simpl; [done|]. rewrite IH. lia. Qed.

Lemma sumZ_split c i x :
  c !! i = Some x →
  sumZ f c = (sumZ f (take i c) + f x + sumZ f (drop (S i) c))%Z.
Proof.
  intros Hi. rewrite <-(take_drop_middle c i x Hi) at 1.
  rewrite sumZ_app. simpl. lia.
Qed.

Lemma sumZ_insert c i x y :
  c !! i = Some x → sumZ f (<[i := y]> c) = (sumZ f c - f x + f y)%Z.
Proof.
  intros Hi. pose proof (lookup_lt_Some _ _ _ Hi) as Hlt.
  rewrite (sumZ_split c i x Hi).
  rewrite (sumZ_split (<[i := y]> c) i y) by by apply list_lookup_insert_eq.
  rewrite take_insert_ge, drop_insert_lt by lia. lia.
Qed.

Lemma sumZ_delete c i x :
  c !! i = Some x → sumZ f (delete i c) = (sumZ f c - f x)%Z.
Proof.
  intros Hi. rewrite (sumZ_split c i x Hi), delete_take_drop, sumZ_app. lia.
Qed.

Lemma sumZ_foldl g acc c :
  (∀ a item, g a item = (a + f item)%Z) →
  foldl g acc c = (acc + sumZ f c)%Z.
Proof.
  intros Hg. revert acc. induction c as [|x c IH]; intros acc; simpl; [lia|].
  rewrite IH, Hg. lia.
Qed.
End Sums.

Lemma totalItems_sum c : totalItems c = sumQuantity c.
Proof. unfold totalItems, sumQuantity. by rewrite (sumZ_foldl quantity). Qed.

Lemma sumQuantity_lower_bound c :
  Forall (λ item, 1 ≤ quantity item)%Z c → (Z.of_nat (length c) ≤ sumQuantity c)%Z.
Proof.
  unfold sumQuantity. induction 1 as [|x c Hx _ IH]; simpl; lia.
Qed.

Lemma totalItems_pos c :
  cartInvariant c → c ≠ [] → (totalItems c > 0)%Z.
Proof.
  intros [_ Hall] Hne. rewrite totalItems_sum.
  pose proof (sumQuantity_lower_bound c Hall).
  destruct c; [done|]. simpl in *. lia.
Qed.

(** ** The badge *)

Lemma updateCartDisplay_nonempty s :
  cart s ≠ [] →
  updateCartDisplay s
  = set_view (mkCartView (renderRows (cart s)) (cartTotal (cart s)) false
                         (totalItems (cart s))
                         (bool_decide (totalItems (cart s) > 0)%Z)) s.
Proof.
  intros Hne. unfold updateCartDisplay.
  rewrite bool_decide_eq_false_2; [done|].
  destruct (cart s); [done|]. simpl. lia.
Qed.

Lemma updateCartDisplay_empty s :
  cart s = [] →
  updateCartDisplay s
  = set_view (mkCartView [] 0 true (cartCountText (view s))
                         (cartCountShown (view s))) s.
Proof.
  intros Hempty. unfold updateCartDisplay.
  rewrite bool_decide_eq_true_2; [done|]. by rewrite Hempty.
Qed.

Lemma badge_updateCartDisplay_empty s :
  cart s = [] → badge (updateCartDisplay s) = badge s.
Proof. intros Hempty. by rewrite updateCartDisplay_empty. Qed.

Lemma badgeInSync_updateCartDisplay s : badgeInSync (updateCartDisplay s).
Proof.
  intros Hne. rewrite cart_updateCartDisplay in Hne |- *.
  by rewrite updateCartDisplay_nonempty.
Qed.

Lemma badgeInSync_ext s s' :
  cart s' = cart s → view s' = view s → badgeInSync s → badgeInSync s'.
Proof. unfold badgeInSync. by intros -> ->. Qed.

Lemma badgeInSync_controls target s s' :
  handleCartControlsClick target s = Normal s' → badgeInSync s'.
Proof.
  unfold handleCartControlsClick. intros Hrun.
  repeat case_match; simplify_eq; apply badgeInSync_updateCartDisplay.
Qed.

Lemma badgeInSync_step s e : badgeInSync s → badgeInSync (step s e).
Proof.
  intros Hsync. unfold step. destruct e; simpl; try done.
  - apply badgeInSync_updateCartDisplay.
  - eapply badgeInSync_ext; [..|apply badgeInSync_updateCartDisplay]; done.
  - intros Hne. by rewrite cart_checkout in Hne.
  - destruct (handleCartControlsClick target s) as [s'|] eqn:Hrun; [|done].
    apply (badgeInSync_controls _ _ _ Hrun).
  - unfold trackOrderBtnClick. by case_bool_decide.
  - destruct (timers s !! i) as [[d [|n [o|]]]|]; done.
Qed.

Lemma badgeInSync_reachable s : reachable s → badgeInSync s.
Proof.
  induction 1 as [v m c t | s e _ IH]; [done|]. by apply badgeInSync_step.
Qed.

Lemma cart_addItemToCart_nonempty n p s : cart (addItemToCart n p s) ≠ [].
Proof.
  rewrite cart_addItemToCart.
  destruct (findIndex n (cart s)) as [[i item]|] eqn:Hfind.
  - apply findIndex_Some in Hfind as (Hi & _).
    intros Hnil. apply (f_equal length) in Hnil.
    rewrite length_insert in Hnil. apply lookup_lt_Some in Hi. simpl in Hnil. lia.
  - by destruct (cart s).
Qed.

Lemma badge_controls_empty target s s' :
  handleCartControlsClick target s = Normal s' → cart s' = [] →
  badge s' = badge s.
Proof.
  unfold handleCartControlsClick. intros Hrun Hempty.
  repeat case_match; simplify_eq;
    rewrite cart_updateCartDisplay in Hempty;
    by rewrite badge_updateCartDisplay_empty.
Qed.

Lemma badge_step_empty s e : cart (step s e) = [] → badge (step s e) = badge s.
Proof.
  unfold step. destruct e; simpl; try done.
  - intros Hempty. by apply cart_addItemToCart_nonempty in Hempty.
  - intros Hempty. by apply cart_addItemToCart_nonempty in Hempty.
  - intros _. destruct (decide (cart s = [])) as [Hempty|Hne].
    + by rewrite handleBuyAllItemsClick_empty.
    + rewrite handleBuyAllItemsClick_nonempty by done.
      change (badge (showOrderConfirmation ?id (closeModal ?m ?s0)))
        with (badge s0).
      by rewrite badge_updateCartDisplay_empty.
  - destruct (handleCartControlsClick target s) as [s'|] eqn:Hrun; [|done].
    apply (badge_controls_empty _ _ _ Hrun).
  - intros _. unfold trackOrderBtnClick. by case_bool_decide.
  - intros _. destruct (timers s !! i) as [[d [|n [o|]]]|]; done.
Qed.

(** The template puts the name of an entry into the markup as it is. *)
Lemma rowMarkup_name_verbatim toLocaleString c i item :
  c !! i = Some item →
  ∃ r, renderRows c !! i = Some r
       ∧ rowMarkup toLocaleString r
         = rowMarkupBeforeName ++ name item ++ rowMarkupAfterName toLocaleString r.
Proof.
  intros Hi. eexists. rewrite lookup_renderRows, Hi. split; [done|]. done.
Qed.

Lemma rendered_button_click s i item btn :
  cart s !! i = Some item →
  btn ∈ [decreaseBtn i; increaseBtn i; removeBtn i] →
  ∃ s', dispatch s (CartControlsClick btn) = Normal s'.
Proof.
  intros Hi Hbtn. simpl. unfold handleCartControlsClick.
  repeat (apply elem_of_cons in Hbtn as [-> | Hbtn]);
    [..|by apply elem_of_nil in Hbtn]; simpl.
  - rewrite (at_index_nat _ _ _ Hi). case_bool_decide; by eexists.
  - rewrite (at_index_nat _ _ _ Hi). by eexists.
  - by eexists.
Qed.

(** X1: in every reachable state the cart panel is the rendering of the
    cart: one row per entry, in cart order, whose template was filled with
    the name, the price and the quantity of the entry; the three buttons of
    a row carry the position of its entry as their index, so a click on any
    button the template has rendered finds its entry and completes
    normally; the total on display is the total of the cart, accumulated in
    cart order; and the buy button is disabled exactly when the cart is
    empty. *)
Theorem cart_panel_follows_cart s :
  reachable s →
  length (rows (view s)) = length (cart s)
  ∧ (∀ i r, rows (view s) !! i = Some r →
       rowIndex r = i
       ∧ cart s !! i
         = Some (mkLineItem (rowName r) (rowPrice r) (rowQuantity r))
       ∧ ∀ btn, btn ∈ buttonsOf r →
           dataIndex btn = Int (Z.of_nat i)
           ∧ ∃ s', dispatch s (CartControlsClick btn) = Normal s')
  ∧ (∀ i item, cart s !! i = Some item →
       rows (view s) !! i
       = Some (mkRow (name item) (price item) i (quantity item)))
  ∧ cartTotalText (view s) = sumPriceQuantity (cart s)
  ∧ (buyAllDisabled (view s) = true ↔ cart s = []).
Proof.
  intros (Hrows & Htotal & Hbuy)%viewInSync_reachable.
  rewrite Hrows, Htotal, Hbuy, cartTotal_sum. split_and!.
  - apply length_renderRows.
  - intros i r Hr. rewrite lookup_renderRows in Hr.
    destruct (cart s !! i) as [[n p q]|] eqn:Hi; [|done].
    simpl in Hr. injection Hr as <-. simpl. split_and!; [done..|].
    intros btn Hbtn. split.
    + unfold buttonsOf in Hbtn. simpl in Hbtn.
      repeat (apply elem_of_cons in Hbtn as [-> | Hbtn]);
        [done..|by apply elem_of_nil in Hbtn].
    + by eapply rendered_button_click.
  - intros i item Hi. by rewrite lookup_renderRows, Hi.
  - done.
  - by rewrite bool_decide_eq_true.
Qed.

Lemma cart_panel_follows_cart_witness :
  rows (view (run freshPage [AddToCartClick (js "Hoodie") 1200;
                             AddToCartClick (js "Cap") 299.5;
                             CartControlsClick (increaseBtn 1)])) !! 1
  = Some (mkRow (js "Cap") 299.5 1 2)
  ∧ cartTotalText (view (run freshPage [AddToCartClick (js "Hoodie") 1200;
                                        AddToCartClick (js "Cap") 299.5;
                                        CartControlsClick (increaseBtn 1)]))
    = 1799%float.
Proof.
  destruct (cart_panel_follows_cart
              (run freshPage [AddToCartClick (js "Hoodie") 1200;
                              AddToCartClick (js "Cap") 299.5;
                              CartControlsClick (increaseBtn 1)]))
    as (_ & _ & Hrows & Htotal & _).
  - apply reachable_run, reachable_freshPage.
  - split; [|exact Htotal].
    apply (Hrows 1 (mkLineItem (js "Cap") 299.5 2)). reflexivity.
Defined.

(** X2: in every reachable state with a non-empty cart the badge is
    displayed and shows the number of items, the sum of the quantities,
    which is at least the number of entries. *)
Theorem badge_counts_items s :
  reachable s → cart s ≠ [] →
  cartCountText (view s) = sumQuantity (cart s)
  ∧ cartCountShown (view s) = true
  ∧ (Z.of_nat (length (cart s)) ≤ cartCountText (view s))%Z.
Proof.
  intros Hreach Hne.
  destruct (badgeInSync_reachable s Hreach Hne) as [Htext Hshown].
  pose proof (cartInvariant_reachable s Hreach) as Hinv.
  rewrite Htext, Hshown, totalItems_sum. split_and!.
  - done.
  - apply bool_decide_eq_true_2. rewrite <-totalItems_sum.
    by apply totalItems_pos.
  - apply sumQuantity_lower_bound, Hinv.
Qed.

Lemma badge_counts_items_witness :
  cartCountText (view (run freshPage [AddToCartClick (js "Hoodie") 1200;
                                      AddToCartClick (js "Cap") 300;
                                      AddToCartClick (js "Hoodie") 1200]))
  = 3%Z.
Proof.
  destruct (badge_counts_items
              (run freshPage [AddToCartClick (js "Hoodie") 1200; AddToCartClick (js "Cap") 300;
                              AddToCartClick (js "Hoodie") 1200]))
    as (Htext & _).
  - apply reachable_run, reachable_freshPage.
  - done.
  - exact Htext.
Defined.

(** X3: the badge is not refreshed when the cart becomes empty: whatever
    event empties a non-empty cart of a reachable state (checkout, removing
    or decreasing the last entry), the badge stays displayed and keeps
    showing the positive item count of the cart before the event. *)
Theorem badge_stale_when_cart_emptied s e :
  reachable s → cart s ≠ [] → cart (step s e) = [] →
  cartCountText (view (step s e)) = sumQuantity (cart s)
  ∧ cartCountShown (view (step s e)) = true
  ∧ (0 < sumQuantity (cart s))%Z.
Proof.
  intros Hreach Hne Hempty.
  pose proof (badge_step_empty s e Hempty) as Hbadge.
  destruct (badgeInSync_reachable s Hreach Hne) as [Htext Hshown].
  pose proof (totalItems_pos _ (cartInvariant_reachable s Hreach) Hne) as Hpos.
  unfold badge in Hbadge. injection Hbadge as -> ->.
  rewrite Htext, Hshown, <-totalItems_sum. split_and!; [done| |lia].
  by apply bool_decide_eq_true_2.
Qed.

Lemma badge_stale_when_cart_emptied_witness :
  cart (step (run freshPage [AddToCartClick (js "Hoodie") 1200; AddToCartClick (js "Hoodie") 1200])
             (CartControlsClick (removeBtn 0))) = []
  ∧ cartCountText
      (view (step (run freshPage [AddToCartClick (js "Hoodie") 1200;
                                  AddToCartClick (js "Hoodie") 1200])
                  (CartControlsClick (removeBtn 0)))) = 2%Z
  ∧ cartCountShown
      (view (step (run freshPage [AddToCartClick (js "Hoodie") 1200;
                                  AddToCartClick (js "Hoodie") 1200])
                  (CartControlsClick (removeBtn 0)))) = true.
Proof.
  split; [reflexivity|].
  destruct (badge_stale_when_cart_emptied
              (run freshPage [AddToCartClick (js "Hoodie") 1200; AddToCartClick (js "Hoodie") 1200])
              (CartControlsClick (removeBtn 0)))
    as (Htext & Hshown & _).
  - apply reachable_run, reachable_freshPage.
  - done.
  - reflexivity.
  - split; [exact Htext|exact Hshown].
Defined.

(** ** Quantity and remove buttons *)

Lemma incr_decr_item item : decrQuantity (incrQuantity item) = item.
Proof. destruct item as [n p q]. unfold decrQuantity, incrQuantity. simpl. f_equal. lia. Qed.

(** X4: a click on the increase button of a valid row completes normally
    and raises that entry's quantity by 1 in place, so the item count grows
    by 1; the row of the entry is rendered again with the new quantity and
    the same index, the total on display is the total of the new cart, and
    the order store is left alone. *)
Theorem increase_quantity_in_place target s i item :
  contains target "increase-quantity-btn" = true →
  dataIndex target = Int (Z.of_nat i) →
  cart s !! i = Some item →
  ∃ s', handleCartControlsClick target s = Normal s'
    ∧ cart s' = <[i := mkLineItem (name item) (price item) (quantity item + 1)]> (cart s)
    ∧ sumQuantity (cart s') = (sumQuantity (cart s) + 1)%Z
    ∧ rows (view s') !! i
      = Some (mkRow (name item) (price item) i (quantity item + 1))
    ∧ cartTotalText (view s') = cartTotal (cart s')
    ∧ orders s' = orders s.
Proof.
  intros Hinc Hidx Hi.
  pose proof (lookup_lt_Some _ _ _ Hi) as Hlt.
  destruct (handleCartControlsClick target s) as [s'|err] eqn:Hrun; last first.
  { unfold handleCartControlsClick in Hrun.
    by rewrite Hinc, Hidx, (at_index_nat _ _ _ Hi) in Hrun. }
  destruct (viewInSync_controls _ _ _ Hrun) as (Hrows & Htotal & _).
  assert (cart s' = <[i := incrQuantity item]> (cart s)
          ∧ orders s' = orders s) as [Hcart Horders].
  { unfold handleCartControlsClick in Hrun.
    rewrite Hinc, Hidx, (at_index_nat _ _ _ Hi) in Hrun.
    injection Hrun as <-. by autorewrite with frame. }
  exists s'. split; [done|]. rewrite Hrows, Htotal, Hcart.
  unfold incrQuantity. split_and!; [done| | |done..].
  - unfold sumQuantity. rewrite (sumZ_insert _ _ _ item) by done. simpl. lia.
  - rewrite lookup_renderRows, list_lookup_insert_eq by done. done.
Qed.

Lemma increase_quantity_in_place_witness :
  ∃ s', handleCartControlsClick (increaseBtn 0)
          (run freshPage [AddToCartClick (js "Hoodie") 499.5]) = Normal s'
    ∧ cart s' = [mkLineItem (js "Hoodie") 499.5 2]
    ∧ rows (view s') !! 0 = Some (mkRow (js "Hoodie") 499.5 0 2).
Proof.
  destruct (increase_quantity_in_place (increaseBtn 0)
              (run freshPage [AddToCartClick (js "Hoodie") 499.5]) 0
              (mkLineItem (js "Hoodie") 499.5 1))
    as (s' & Hrun & Hcart & _ & Hrow & _); [reflexivity..|].
  exists s'. split_and!; [exact Hrun|exact Hcart|exact Hrow].
Defined.

(** X5: a click on the decrease button of a valid row whose quantity is at
    least 1 completes normally and takes exactly one item out of the cart,
    whether the entry stays or is removed: the item count drops by 1, the
    cart panel is rendered from the new cart, and the order store is left
    alone. *)
Theorem decrease_takes_one_item target s i item :
  contains target "increase-quantity-btn" = false →
  contains target "decrease-quantity-btn" = true →
  dataIndex target = Int (Z.of_nat i) →
  cart s !! i = Some item →
  (1 ≤ quantity item)%Z →
  ∃ s', handleCartControlsClick target s = Normal s'
    ∧ sumQuantity (cart s') = (sumQuantity (cart s) - 1)%Z
    ∧ viewInSync s'
    ∧ orders s' = orders s.
Proof.
  intros Hinc Hdec Hidx Hi Hq.
  pose proof (lookup_lt_Some _ _ _ Hi) as Hlt.
  destruct (handleCartControlsClick target s) as [s'|err] eqn:Hrun; last first.
  { unfold handleCartControlsClick in Hrun.
    rewrite Hinc, Hdec, Hidx, (at_index_nat _ _ _ Hi) in Hrun.
    by case_bool_decide. }
  pose proof (viewInSync_controls _ _ _ Hrun) as Hsync.
  exists s'. split; [done|]. split; [|split; [done|]];
    unfold handleCartControlsClick in Hrun;
    rewrite Hinc, Hdec, Hidx, (at_index_nat _ _ _ Hi) in Hrun;
    case_bool_decide as Hmany; injection Hrun as <-;
    autorewrite with frame; unfold sumQuantity; cbn [cart set_cart orders];
    try done.
  - rewrite (sumZ_insert _ _ _ item) by done.
    unfold decrQuantity. cbn [quantity]. lia.
  - rewrite splice1_nat by done. rewrite (sumZ_delete _ _ _ item) by done. lia.
Qed.

Lemma decrease_takes_one_item_witness :
  ∃ s', handleCartControlsClick (decreaseBtn 1)
          (run freshPage [AddToCartClick (js "Hoodie") 1200;
                          AddToCartClick (js "Cap") 300])
        = Normal s'
    ∧ sumQuantity (cart s') = 1%Z
    ∧ viewInSync s'.
Proof.
  destruct (decrease_takes_one_item (decreaseBtn 1)
              (run freshPage [AddToCartClick (js "Hoodie") 1200;
                              AddToCartClick (js "Cap") 300])
              1 (mkLineItem (js "Cap") 300 1))
    as (s' & Hrun & Hcount & Hsync & _); [reflexivity..|done|].
  exists s'. split_and!; [exact Hrun|exact Hcount|exact Hsync].
Defined.

(** X6: a click on a remove button never throws, and the cart panel is
    rendered from the cart it leaves.  At a valid index it deletes exactly
    that entry, the others keeping their order, and takes the entry's whole
    quantity off the item count; at an index from the cart length on it
    leaves the cart as it is; a [NaN] index deletes the first entry; a
    negative index counts from the end. *)
Theorem remove_deletes_entry target s :
  contains target "increase-quantity-btn" = false →
  contains target "decrease-quantity-btn" = false →
  contains target "remove-item-btn" = true →
  ∃ s', handleCartControlsClick target s = Normal s'
    ∧ orders s' = orders s
    ∧ viewInSync s'
    ∧ (∀ i item, dataIndex target = Int (Z.of_nat i) → cart s !! i = Some item →
         cart s' = delete i (cart s)
         ∧ sumQuantity (cart s') = (sumQuantity (cart s) - quantity item)%Z)
    ∧ (∀ z, dataIndex target = Int z → (Z.of_nat (length (cart s)) ≤ z)%Z →
         cart s' = cart s)
    ∧ (dataIndex target = NaN → cart s' = drop 1 (cart s))
    ∧ (∀ k, dataIndex target = Int (- Z.of_nat k) → 0 < k ≤ length (cart s) →
         cart s' = delete (length (cart s) - k) (cart s)).
Proof.
  intros Hinc Hdec Hrem.
  unfold handleCartControlsClick. rewrite Hinc, Hdec, Hrem.
  eexists. split; [done|].
  split; [by autorewrite with frame|].
  split; [apply viewInSync_updateCartDisplay|].
  autorewrite with frame. simpl. split_and!.
  - intros i item -> Hi. pose proof (lookup_lt_Some _ _ _ Hi) as Hlt.
    rewrite splice1_nat by done.
    unfold sumQuantity. rewrite !(sumZ_delete _ _ _ item) by done. done.
  - intros z -> Hz. unfold splice1, spliceStart.
    rewrite bool_decide_eq_false_2 by lia.
    rewrite Z.min_r, Nat2Z.id by lia.
    rewrite delete_take_drop, take_ge, drop_ge by lia. by rewrite app_nil_r.
  - intros ->. unfold splice1, spliceStart. by destruct (cart s).
  - intros k -> Hk. unfold splice1, spliceStart.
    rewrite bool_decide_eq_true_2 by lia. f_equal. lia.
Qed.

Lemma remove_deletes_entry_witness :
  ∃ s', handleCartControlsClick (removeBtn 0)
          (run freshPage [AddToCartClick (js "Hoodie") 1200;
                          AddToCartClick (js "Cap") 300;
                          AddToCartClick (js "Hoodie") 1200])
        = Normal s'
    ∧ cart s' = [mkLineItem (js "Cap") 300 1].
Proof.
  destruct (remove_deletes_entry (removeBtn 0)
              (run freshPage [AddToCartClick (js "Hoodie") 1200;
                              AddToCartClick (js "Cap") 300;
                              AddToCartClick (js "Hoodie") 1200]))
    as (s' & Hrun & _ & _ & Hvalid & _); [reflexivity..|].
  exists s'. split; [exact Hrun|].
  apply (Hvalid 0 (mkLineItem (js "Hoodie") 1200 2)); reflexivity.
Defined.

(** X7: a click on an increase or decrease button whose index is [NaN],
    negative, or not below the cart length throws a [TypeError] before
    anything is written: the page is in the same state after the event. *)
Theorem bad_index_throws_and_changes_nothing target s :
  contains target "increase-quantity-btn" = true
  ∨ contains target "decrease-quantity-btn" = true →
  dataIndex target = NaN
  ∨ (∃ z, dataIndex target = Int z
          ∧ (z < 0 ∨ Z.of_nat (length (cart s)) ≤ z)%Z) →
  handleCartControlsClick target s = Throw TypeError
  ∧ step s (CartControlsClick target) = s.
Proof.
  intros Hclass Hbad.
  assert (at_index (cart s) (dataIndex target) = None) as Hnone.
  { destruct (at_index (cart s) (dataIndex target)) as [[i x]|] eqn:Hat; [|done].
    apply at_index_Some in Hat as [(z & Hz & Hpos & ->) Hi].
    apply lookup_lt_Some in Hi.
    destruct Hbad as [Hnan|(z' & Hz' & Hrange)]; [congruence|].
    rewrite Hz in Hz'. injection Hz' as <-. lia. }
  assert (handleCartControlsClick target s = Throw TypeError) as Hthrow.
  { unfold handleCartControlsClick. rewrite Hnone.
    destruct (contains target "increase-quantity-btn"); [done|].
    destruct Hclass as [? | ->]; done. }
  split; [done|]. unfold step. simpl. by rewrite Hthrow.
Qed.

Lemma bad_index_throws_and_changes_nothing_witness :
  handleCartControlsClick (mkClickTarget ["decrease-quantity-btn"] (Int 3))
    (run freshPage [AddToCartClick (js "Hoodie") 1200]) = Throw TypeError
  ∧ step (run freshPage [AddToCartClick (js "Hoodie") 1200])
         (CartControlsClick (mkClickTarget ["decrease-quantity-btn"] (Int 3)))
    = run freshPage [AddToCartClick (js "Hoodie") 1200].
Proof.
  apply (bad_index_throws_and_changes_nothing
           (mkClickTarget ["decrease-quantity-btn"] (Int 3))
           (run freshPage [AddToCartClick (js "Hoodie") 1200])).
  - right. reflexivity.
  - right. exists 3%Z. split; [reflexivity|]. right. simpl. lia.
Defined.

(** ** How the cart operations compose *)

Lemma cart_set_cart c s : cart (set_cart c s) = c.
Proof. done. Qed.

Lemma orders_set_cart c s : orders (set_cart c s) = orders s.
Proof. done. Qed.

#[global] Hint Rewrite cart_set_cart orders_set_cart : frame.

Lemma confirmationOrderId_updateCartDisplay s :
  confirmationOrderId (updateCartDisplay s) = confirmationOrderId s.
Proof. unfold updateCartDisplay. by case_bool_decide. Qed.

Lemma view_synced s :
  viewInSync s → badgeInSync s → cart s ≠ [] →
  view s = mkCartView (renderRows (cart s)) (cartTotal (cart s)) false
                      (totalItems (cart s))
                      (bool_decide (totalItems (cart s) > 0)%Z).
Proof.
  intros (Hrows & Htotal & Hbuy) Hbadge Hne.
  destruct (Hbadge Hne) as [Htext Hshown].
  destruct (view s) as [r t b ct cs]. simpl in *. subst.
  by rewrite bool_decide_eq_false_2.
Qed.

(** Re-rendering the cart of a synchronised state gives that state back,
    from any state that differs from it in cart and cart panel only. *)
Lemma restore_page s s1 :
  viewInSync s → badgeInSync s → cart s ≠ [] →
  orders s1 = orders s → modals s1 = modals s →
  confirmationOrderId s1 = confirmationOrderId s →
  tracker s1 = tracker s → timers s1 = timers s →
  updateCartDisplay (set_cart (cart s) s1) = s.
Proof.
  intros Hview Hbadge Hne Ho Hm Hc Ht Hti.
  rewrite updateCartDisplay_nonempty by done.
  unfold set_view, set_cart. simpl. rewrite Ho, Hm, Hc, Ht, Hti.
  rewrite <-(view_synced s) by done. by destruct s.
Qed.

Lemma restore_page_after s c :
  viewInSync s → badgeInSync s → cart s ≠ [] →
  updateCartDisplay (set_cart (cart s) (updateCartDisplay (set_cart c s))) = s.
Proof.
  intros Hview Hbadge Hne. apply restore_page; try done;
    by rewrite ?confirmationOrderId_updateCartDisplay; autorewrite with frame.
Qed.

Lemma step_increaseBtn s i item :
  cart s !! i = Some item →
  step s (CartControlsClick (increaseBtn i))
  = updateCartDisplay (set_cart (<[i := incrQuantity item]> (cart s)) s).
Proof.
  intros Hi. unfold step, dispatch, handleCartControlsClick.
  change (contains (increaseBtn i) "increase-quantity-btn") with true.
  change (dataIndex (increaseBtn i)) with (Int (Z.of_nat i)).
  by rewrite (at_index_nat _ _ _ Hi).
Qed.

Lemma step_decreaseBtn s i item :
  cart s !! i = Some item →
  step s (CartControlsClick (decreaseBtn i))
  = updateCartDisplay
      (set_cart (if bool_decide (quantity item > 1)%Z
                 then <[i := decrQuantity item]> (cart s)
                 else delete i (cart s)) s).
Proof.
  intros Hi. pose proof (lookup_lt_Some _ _ _ Hi) as Hlt.
  unfold step, dispatch, handleCartControlsClick.
  change (contains (decreaseBtn i) "increase-quantity-btn") with false.
  change (contains (decreaseBtn i) "decrease-quantity-btn") with true.
  change (dataIndex (decreaseBtn i)) with (Int (Z.of_nat i)).
  rewrite (at_index_nat _ _ _ Hi).
  case_bool_decide; [done|]. by rewrite splice1_nat.
Qed.

Lemma step_removeBtn s i :
  i < length (cart s) →
  step s (CartControlsClick (removeBtn i))
  = updateCartDisplay (set_cart (delete i (cart s)) s).
Proof.
  intros Hlt. unfold step, dispatch, handleCartControlsClick.
  change (contains (removeBtn i) "increase-quantity-btn") with false.
  change (contains (removeBtn i) "decrease-quantity-btn") with false.
  change (contains (removeBtn i) "remove-item-btn") with true.
  change (dataIndex (removeBtn i)) with (Int (Z.of_nat i)).
  by rewrite splice1_nat.
Qed.

(** X8: in a reachable state, clicking the increase button of a row and
    then its decrease button gives back the very same page state: cart,
    cart panel, badge, orders, panels and timers. *)
Theorem increase_then_decrease_restores_page s i :
  reachable s → is_Some (cart s !! i) →
  run s [CartControlsClick (increaseBtn i); CartControlsClick (decreaseBtn i)] = s.
Proof.
  intros Hreach [item Hi].
  pose proof (lookup_lt_Some _ _ _ Hi) as Hlt.
  pose proof (cartInvariant_reachable s Hreach) as [_ Hall].
  rewrite Forall_lookup in Hall. specialize (Hall i item Hi). simpl in Hall.
  assert (cart s ≠ []) as Hne by (by intros Hnil; rewrite Hnil in Hi).
  unfold run. simpl foldl. rewrite (step_increaseBtn s i item Hi).
  rewrite (step_decreaseBtn _ i (incrQuantity item))
    by (autorewrite with frame; simpl; by apply list_lookup_insert_eq).
  rewrite bool_decide_eq_true_2 by (simpl; lia).
  autorewrite with frame. simpl cart at 1.
  rewrite list_insert_insert_eq, incr_decr_item, list_insert_id by done.
  apply restore_page_after;
    auto using viewInSync_reachable, badgeInSync_reachable.
Qed.

Lemma increase_then_decrease_restores_page_witness :
  run (run freshPage [AddToCartClick (js "Hoodie") 1200; AddToCartClick (js "Cap") 300])
      [CartControlsClick (increaseBtn 1); CartControlsClick (decreaseBtn 1)]
  = run freshPage [AddToCartClick (js "Hoodie") 1200; AddToCartClick (js "Cap") 300].
Proof.
  apply (increase_then_decrease_restores_page
           (run freshPage [AddToCartClick (js "Hoodie") 1200; AddToCartClick (js "Cap") 300]) 1).
  - apply reachable_run, reachable_freshPage.
  - by eexists.
Defined.

(** X9: every add raises the item count of the cart by exactly 1 and the
    cart panel shows the total of the new cart.  An add of a new name puts
    the product last, so the total is the old total plus price × 1, in the
    arithmetic of JS numbers; an add of a name in the cart changes no
    price in the cart. *)
Theorem add_raises_count_and_total n p s :
  sumQuantity (cart (addItemToCart n p s)) = (sumQuantity (cart s) + 1)%Z
  ∧ cartTotalText (view (addItemToCart n p s))
    = cartTotal (cart (addItemToCart n p s))
  ∧ (n ∉ name <$> cart s →
     cartTotal (cart (addItemToCart n p s))
     = (cartTotal (cart s) + p * numberOfZ 1)%float)
  ∧ (n ∈ name <$> cart s →
     price <$> cart (addItemToCart n p s) = price <$> cart s).
Proof.
  split_and!.
  - rewrite cart_addItemToCart. unfold sumQuantity.
    destruct (findIndex n (cart s)) as [[i item]|] eqn:Hfind.
    + apply findIndex_Some in Hfind as (Hi & _ & _).
      rewrite !(sumZ_insert _ _ _ item) by done.
      unfold incrQuantity. cbn [quantity]. lia.
    + rewrite !sumZ_app. cbn. lia.
  - unfold addItemToCart.
    match goal with
    | |- context [updateCartDisplay ?s0] =>
        by destruct (viewInSync_updateCartDisplay s0) as (_ & ? & _)
    end.
  - intros Hnew. rewrite cart_addItemToCart.
    apply findIndex_None in Hnew. rewrite Hnew. by rewrite cartTotal_snoc.
  - intros Hin. rewrite cart_addItemToCart.
    destruct (findIndex n (cart s)) as [[i item]|] eqn:Hfind.
    + apply findIndex_Some in Hfind as (Hi & _ & _).
      rewrite list_fmap_insert. simpl.
      apply list_insert_id. by rewrite list_lookup_fmap, Hi.
    + by apply findIndex_None in Hfind.
Qed.

Lemma add_raises_count_and_total_witness :
  cartTotal (cart (addItemToCart (js "Cap") 0.3
                     (run freshPage [AddToCartClick (js "Tee") 0.1;
                                     AddToCartClick (js "Socks") 0.2])))
  = 0.6000000000000001%float.
Proof.
  rewrite (proj1 (proj2 (proj2 (add_raises_count_and_total (js "Cap") 0.3
             (run freshPage [AddToCartClick (js "Tee") 0.1;
                             AddToCartClick (js "Socks") 0.2]))))).
  - reflexivity.
  - closed_decision.
Defined.

(** X10: adding a product that is not in the cart and then clicking the
    decrease (or the remove) button of the row it got gives the cart back
    as it was; in a reachable state with a non-empty cart the whole page
    state is back as it was. *)
Theorem add_then_take_back n p s btn :
  n ∉ name <$> cart s →
  btn = decreaseBtn (length (cart s)) ∨ btn = removeBtn (length (cart s)) →
  cart (run s [AddToCartClick n p; CartControlsClick btn]) = cart s
  ∧ orders (run s [AddToCartClick n p; CartControlsClick btn]) = orders s
  ∧ (reachable s → cart s ≠ [] →
     run s [AddToCartClick n p; CartControlsClick btn] = s).
Proof.
  intros Hfresh Hbtn.
  assert (step s (AddToCartClick n p)
          = updateCartDisplay (set_cart (cart s ++ [mkLineItem n p 1]) s)) as Hadd.
  { unfold step, dispatch, handleAddToCartClick, addItemToCart.
    apply findIndex_None in Hfresh. by rewrite Hfresh. }
  assert (run s [AddToCartClick n p; CartControlsClick btn]
          = updateCartDisplay
              (set_cart (cart s)
                 (updateCartDisplay (set_cart (cart s ++ [mkLineItem n p 1]) s))))
    as ->.
  { unfold run. simpl foldl. rewrite Hadd.
    assert (delete (length (cart s)) (cart s ++ [mkLineItem n p 1]) = cart s) as Hdel
      by (by rewrite delete_middle, app_nil_r).
    destruct Hbtn as [-> | ->].
    - rewrite (step_decreaseBtn _ _ (mkLineItem n p 1)).
      + rewrite bool_decide_eq_false_2 by (simpl; lia).
        autorewrite with frame. by rewrite Hdel.
      + autorewrite with frame. simpl.
        by rewrite lookup_app_r, Nat.sub_diag by lia.
    - rewrite step_removeBtn.
      + autorewrite with frame. by rewrite Hdel.
      + autorewrite with frame. simpl. rewrite length_app. simpl. lia. }
  split_and!.
  - by autorewrite with frame.
  - by autorewrite with frame.
  - intros Hreach Hne. apply restore_page_after;
      auto using viewInSync_reachable, badgeInSync_reachable.
Qed.

Lemma add_then_take_back_witness :
  run (run freshPage [AddToCartClick (js "Hoodie") 1200])
      [AddToCartClick (js "Cap") 300; CartControlsClick (removeBtn 1)]
  = run freshPage [AddToCartClick (js "Hoodie") 1200].
Proof.
  apply (add_then_take_back (js "Cap") 300%float
           (run freshPage [AddToCartClick (js "Hoodie") 1200]) (removeBtn 1)).
  - closed_decision.
  - by right.
  - apply reachable_run, reachable_freshPage.
  - done.
Defined.

(** ** The order store over the life of the page *)

Lemma orders_step_cases s e :
  orders (step s e) = orders s
  ∨ ∃ now localeDate,
      e = BuyAllItemsClick now localeDate ∧ cart s ≠ []
      ∧ orders (step s e) = orders s ++ [orderOf now localeDate s].
Proof.
  unfold step. destruct e; simpl; try (by left).
  - left. apply orders_addItemToCart.
  - left. apply orders_addItemToCart.
  - destruct (decide (cart s = [])) as [Hempty|Hne].
    + left. by rewrite handleBuyAllItemsClick_empty.
    + right. exists now, localeDate. by rewrite orders_checkout.
  - left. destruct (handleCartControlsClick target s) as [s'|] eqn:Hrun; [|done].
    by apply orders_controls in Hrun.
  - left. apply orders_trackOrderBtnClick.
  - left. destruct (timers s !! i) as [t|]; [|done]. by rewrite orders_runCallback.
Qed.

Lemma orders_run_length s es :
  length (orders (run s es))
  ≤ length (orders s) + length (filter (λ e, isCheckout e = true) es).
Proof.
  revert s. induction es as [|e es IH]; intros s; simpl; [lia|].
  etrans; [apply IH|].
  destruct (orders_step_cases s e) as [->|(now & d & -> & _ & ->)].
  - rewrite filter_cons. case_decide; simpl; lia.
  - rewrite filter_cons_True by done. rewrite length_app. simpl. lia.
Qed.

(** X11: the order store is append-only.  Whatever happens on the page, an
    order once stored stays at its position and unchanged, and the store
    grows by at most one order per click on the buy button. *)
Theorem order_store_append_only s es i o :
  orders s !! i = Some o →
  orders (run s es) !! i = Some o
  ∧ length (orders s) ≤ length (orders (run s es))
  ∧ length (orders (run s es))
    ≤ length (orders s) + length (filter (λ e, isCheckout e = true) es).
Proof.
  intros Hi. pose proof (orders_run s es) as Hprefix. split_and!.
  - by eapply prefix_lookup_Some.
  - by apply prefix_length.
  - apply orders_run_length.
Qed.

Lemma order_store_append_only_witness :
  orders (run hoodieBought
            [CartControlsClick (increaseBtn 0);
             BuyAllItemsClick 1700001123456 (js "14/11/2023, 22:32:03");
             AddToCartClick (js "Hoodie") 999;
             CartControlsClick (removeBtn 0)]) !! 0
  = Some (mkOrder (js "123456") [mkLineItem (js "Hoodie") 1200 1] 1200 (js "14/11/2023, 22:15:23")).
Proof.
  apply (order_store_append_only hoodieBought
           [CartControlsClick (increaseBtn 0);
            BuyAllItemsClick 1700001123456 (js "14/11/2023, 22:32:03");
            AddToCartClick (js "Hoodie") 999;
            CartControlsClick (removeBtn 0)] 0).
  reflexivity.
Defined.

Lemma orderWellFormed_orderOf now localeDate s :
  cartInvariant (cart s) → cart s ≠ [] →
  orderWellFormed (orderOf now localeDate s).
Proof.
  intros Hinv Hne. unfold orderWellFormed, orderOf. simpl. split_and!.
  - done.
  - done.
  - done.
  - apply newOrderId_nonempty.
  - unfold newOrderId. rewrite sliceLast_length. lia.
  - unfold newOrderId, sliceLast.
    apply noSpace_drop, noSpace_numberToString.
Qed.

Lemma orderWellFormed_reachable s :
  reachable s → Forall orderWellFormed (orders s).
Proof.
  induction 1 as [v m c t | s e Hreach IH]; [constructor|].
  destruct (orders_step_cases s e) as [->|(now & d & _ & Hne & ->)]; [done|].
  apply Forall_app. split; [done|]. constructor; [|constructor].
  apply orderWellFormed_orderOf; [|done]. by apply cartInvariant_reachable.
Qed.

(** X12: every order in the store of a reachable state is well formed: it
    has at least one item, at most one item per name and only quantities of
    at least 1, its total is the sum of price × quantity over its items,
    accumulated in their order in the arithmetic of JS numbers, and its id
    is a non-empty token of at most 6 code units that trimming leaves as
    it is. *)
Theorem stored_orders_well_formed s o :
  reachable s → o ∈ orders s →
  items o ≠ []
  ∧ NoDup (name <$> items o)
  ∧ Forall (λ item, 1 ≤ quantity item)%Z (items o)
  ∧ total o = sumPriceQuantity (items o)
  ∧ orderId o ≠ []
  ∧ length (orderId o) ≤ 6
  ∧ trim (orderId o) = orderId o.
Proof.
  intros Hreach Hin.
  pose proof (orderWellFormed_reachable s Hreach) as Hall.
  rewrite Forall_forall in Hall.
  destruct (Hall o Hin) as (? & [? ?] & Htotal & ? & ? & ?).
  rewrite <-cartTotal_sum.
  split_and!; try done. by apply trim_noSpace.
Qed.

Lemma stored_orders_well_formed_witness :
  total (mkOrder (js "123456") [mkLineItem (js "Hoodie") 1200 1] 1200 (js "14/11/2023, 22:15:23"))
  = sumPriceQuantity [mkLineItem (js "Hoodie") 1200 1].
Proof.
  destruct (stored_orders_well_formed hoodieBought
              (mkOrder (js "123456") [mkLineItem (js "Hoodie") 1200 1] 1200
                       (js "14/11/2023, 22:15:23")))
    as (_ & _ & _ & Htotal & _).
  - apply reachable_hoodieBought.
  - closed_decision.
  - exact Htotal.
Defined.




(** ** The tracker shows stored orders only *)

Lemma timers_addItemToCart n p s : timers (addItemToCart n p s) = timers s.
Proof.
  unfold addItemToCart. autorewrite with frame.
  by destruct (findIndex n (cart s)) as [[i item]|].
Qed.

Lemma tracker_addItemToCart n p s : tracker (addItemToCart n p s) = tracker s.
Proof.
  unfold addItemToCart. autorewrite with frame.
  by destruct (findIndex n (cart s)) as [[i item]|].
Qed.

Lemma timers_controls target s s' :
  handleCartControlsClick target s = Normal s' → timers s' = timers s.
Proof.
  unfold handleCartControlsClick. intros Hrun.
  repeat case_match; simplify_eq; by autorewrite with frame.
Qed.

Lemma tracker_controls target s s' :
  handleCartControlsClick target s = Normal s' → tracker s' = tracker s.
Proof.
  unfold handleCartControlsClick. intros Hrun.
  repeat case_match; simplify_eq; by autorewrite with frame.
Qed.

Lemma timers_checkout now localeDate s :
  cart s ≠ [] →
  timers (handleBuyAllItemsClick now localeDate s)
  = timers s ++ [mkTimer 5000 CloseConfirmation].
Proof.
  intros Hne. rewrite handleBuyAllItemsClick_nonempty by done.
  unfold showOrderConfirmation, setTimeout. simpl. by autorewrite with frame.
Qed.

Lemma tracker_checkout now localeDate s :
  tracker (handleBuyAllItemsClick now localeDate s) = tracker s.
Proof.
  destruct (decide (cart s = [])) as [Hempty|Hne].
  - by rewrite handleBuyAllItemsClick_empty.
  - rewrite handleBuyAllItemsClick_nonempty by done.
    simpl. by autorewrite with frame.
Qed.

Lemma callbackSafe_mono os os' cb :
  os `prefix_of` os' → callbackSafe os cb → callbackSafe os' cb.
Proof.
  intros Hprefix. destruct cb as [|n [o|]]; simpl; try done.
  intros [Hin Hid]. split; [|done]. by eapply elem_of_prefix.
Qed.

Lemma statusSafe_mono os os' st :
  os `prefix_of` os' → statusSafe os st → statusSafe os' st.
Proof.
  intros Hprefix. destruct st; simpl; try done.
  intros (o & Hin & Heq). exists o. split; [|done]. by eapply elem_of_prefix.
Qed.

Lemma trackerSafe_intro s s' :
  orders s `prefix_of` orders s' →
  trackerSafe s →
  (∀ t, t ∈ timers s' → t ∈ timers s ∨ callbackSafe (orders s') (callback t)) →
  status (tracker s') = status (tracker s)
  ∨ statusSafe (orders s') (status (tracker s')) →
  trackerSafe s'.
Proof.
  intros Hprefix [Htimers Hstatus] Hnew Hst. split.
  - apply Forall_forall. intros t Ht. destruct (Hnew t Ht) as [Hold|Hsafe]; [|done].
    rewrite Forall_forall in Htimers.
    eapply callbackSafe_mono; [done|]. by apply Htimers.
  - destruct Hst as [-> | Hsafe]; [|done]. by eapply statusSafe_mono.
Qed.

Lemma trackerSafe_step s e : trackerSafe s → trackerSafe (step s e).
Proof.
  intros Hsafe.
  apply (trackerSafe_intro s); [apply orders_step|done|..];
    unfold step; destruct e; simpl; auto.
  - rewrite timers_addItemToCart. auto.
  - rewrite timers_addItemToCart. auto.
  - destruct (decide (cart s = [])) as [Hempty|Hne].
    + rewrite handleBuyAllItemsClick_empty by done. auto.
    + rewrite timers_checkout by done.
      intros t [Ht | ->%list_elem_of_singleton]%elem_of_app; [by left|by right].
  - destruct (handleCartControlsClick target s) as [s'|] eqn:Hrun; [|by auto].
    rewrite (timers_controls _ _ _ Hrun). auto.
  - unfold trackOrderBtnClick. case_bool_decide; [|by auto].
    unfold trackOrder, setTimeout. simpl.
    intros t [Ht | ->%list_elem_of_singleton]%elem_of_app; [by left|right].
    simpl. destruct (findOrder _ (orders s)) as [[i o]|] eqn:Hfind; [|done].
    apply findOrder_Some in Hfind as (Hi & Hid & _). simpl.
    split; [|done]. by eapply list_elem_of_lookup_2.
  - destruct (timers s !! i) as [t0|] eqn:Hi; [|by auto].
    intros t Ht. left.
    assert (timers (runCallback (callback t0) (set_timers (delete i (timers s)) s))
            = delete i (timers s)) as Heq
      by (by destruct (callback t0) as [|n [o|]]).
    rewrite Heq in Ht. by eapply list_elem_of_delete_inv.
  - left. by rewrite tracker_addItemToCart.
  - left. by rewrite tracker_addItemToCart.
  - left. by rewrite tracker_checkout.
  - destruct (handleCartControlsClick target s) as [s'|] eqn:Hrun; [|by auto].
    left. by rewrite (tracker_controls _ _ _ Hrun).
  - unfold trackOrderBtnClick. case_bool_decide; right; exact I.
  - destruct (timers s !! i) as [t0|] eqn:Hi; [|by auto].
    destruct Hsafe as [Htimers _]. rewrite Forall_lookup in Htimers.
    specialize (Htimers i t0 Hi).
    destruct (callback t0) as [|n [o|]]; simpl in *; [by left| |by right].
    right. exists o. split; [|done]. by destruct Htimers.
Qed.

Lemma trackerSafe_run s es : trackerSafe s → trackerSafe (run s es).
Proof.
  revert s. induction es as [|e es IH]; intros s Hsafe; [done|].
  simpl. by apply IH, trackerSafe_step.
Qed.

(** X14: the tracker never shows anything that is not in the order store.
    On a page whose markup holds no order details, after any sequence of
    events, order details on display are those of a stored order (its id,
    date, item list and total), and every pending result that carries an
    order carries a stored order whose id is the number asked for. *)
Theorem tracker_shows_stored_orders_only v m c t es :
  (∀ a b il tot, status t ≠ StatusDetails a b il tot) →
  (∀ a b il tot,
     status (tracker (run (DOMContentLoaded (scriptStart v m c t)) es))
     = StatusDetails a b il tot →
     ∃ o, o ∈ orders (run (DOMContentLoaded (scriptStart v m c t)) es)
          ∧ a = orderId o ∧ b = date o ∧ il = itemsListOf o ∧ tot = total o)
  ∧ (∀ k d n o,
       timers (run (DOMContentLoaded (scriptStart v m c t)) es) !! k
       = Some (mkTimer d (ShowTrackingResult n (Some o))) →
       o ∈ orders (run (DOMContentLoaded (scriptStart v m c t)) es)
       ∧ orderId o = n).
Proof.
  intros Hmarkup.
  assert (trackerSafe (run (DOMContentLoaded (scriptStart v m c t)) es))
    as [Htimers Hstatus].
  { apply trackerSafe_run. split; [constructor|].
    simpl. destruct (status t) eqn:Hst; simpl; try done.
    by destruct (Hmarkup shownId shownDate itemsList shownTotal). }
  split.
  - intros a b il tot Heq. rewrite Heq in Hstatus.
    destruct Hstatus as (o & Hin & Hdetails).
    exists o. unfold detailsOf in Hdetails. by simplify_eq.
  - intros k d n o Hk. rewrite Forall_lookup in Htimers.
    apply (Htimers k _ Hk).
Qed.

Lemma tracker_shows_stored_orders_only_witness :
  ∃ o, o ∈ orders (run freshPage
                     [AddToCartClick (js "Hoodie") 1200;
                      BuyAllItemsClick 1700000123456 (js "14/11/2023, 22:15:23");
                      TypeOrderNumber (js "123456"); TrackOrderClick; TimerFires 1])
       ∧ (js "123456") = orderId o ∧ (js "14/11/2023, 22:15:23") = date o
       ∧ (js "Hoodie (x1)") = itemsListOf o ∧ 1200%float = total o.
Proof.
  apply (proj1 (tracker_shows_stored_orders_only
                  (mkCartView [] 0 true 0 false) (mkModals false false false)
                  None (mkTracker [] StatusMarkup false false)
                  [AddToCartClick (js "Hoodie") 1200;
                   BuyAllItemsClick 1700000123456 (js "14/11/2023, 22:15:23");
                   TypeOrderNumber (js "123456"); TrackOrderClick; TimerFires 1]
                  ltac:(done))).
  reflexivity.
Defined.

(** ** Checkout and the confirmation panel *)

Lemma modals_addItemToCart n p s : modals (addItemToCart n p s) = modals s.
Proof.
  unfold addItemToCart. autorewrite with frame.
  by destruct (findIndex n (cart s)) as [[i item]|].
Qed.

Lemma confirmationOrderId_addItemToCart n p s :
  confirmationOrderId (addItemToCart n p s) = confirmationOrderId s.
Proof.
  unfold addItemToCart. rewrite confirmationOrderId_updateCartDisplay.
  by destruct (findIndex n (cart s)) as [[i item]|].
Qed.

Lemma modals_checkout now localeDate s :
  cart s ≠ [] →
  modals (handleBuyAllItemsClick now localeDate s)
  = mkModals false true (trackerModalOpen (modals s)).
Proof.
  intros Hne. rewrite handleBuyAllItemsClick_nonempty by done.
  simpl. by autorewrite with frame.
Qed.

Lemma confirmationOrderId_checkout now localeDate s :
  cart s ≠ [] →
  confirmationOrderId (handleBuyAllItemsClick now localeDate s)
  = Some (newOrderId now).
Proof. intros Hne. by rewrite handleBuyAllItemsClick_nonempty. Qed.

Lemma view_checkout now localeDate s :
  cart s ≠ [] →
  view (handleBuyAllItemsClick now localeDate s)
  = mkCartView [] 0 true (cartCountText (view s)) (cartCountShown (view s)).
Proof.
  intros Hne. rewrite handleBuyAllItemsClick_nonempty by done.
  change (view (showOrderConfirmation ?id (closeModal ?m ?s0))) with (view s0).
  by rewrite updateCartDisplay_empty.
Qed.

(** X15: a checkout of a non-empty cart leaves the page ready for the next
    order and cannot be repeated: the cart panel is closed and shows no
    rows, a total of 0 and a disabled buy button, the confirmation panel is
    open with the new id and one auto-close is scheduled; a second click on
    the buy button changes nothing, and the next add starts a fresh entry
    of quantity 1 at the price given. *)
Theorem checkout_leaves_page_ready now localeDate s :
  cart s ≠ [] →
  (∀ now' localeDate',
     handleBuyAllItemsClick now' localeDate' (handleBuyAllItemsClick now localeDate s)
     = handleBuyAllItemsClick now localeDate s)
  ∧ rows (view (handleBuyAllItemsClick now localeDate s)) = []
  ∧ cartTotalText (view (handleBuyAllItemsClick now localeDate s)) = 0%float
  ∧ buyAllDisabled (view (handleBuyAllItemsClick now localeDate s)) = true
  ∧ cartModalOpen (modals (handleBuyAllItemsClick now localeDate s)) = false
  ∧ confirmationModalOpen (modals (handleBuyAllItemsClick now localeDate s)) = true
  ∧ confirmationOrderId (handleBuyAllItemsClick now localeDate s)
    = Some (newOrderId now)
  ∧ timers (handleBuyAllItemsClick now localeDate s)
    = timers s ++ [mkTimer 5000 CloseConfirmation]
  ∧ ∀ n p, cart (addItemToCart n p (handleBuyAllItemsClick now localeDate s))
           = [mkLineItem n p 1].
Proof.
  intros Hne.
  rewrite view_checkout, modals_checkout, confirmationOrderId_checkout,
    timers_checkout by done.
  split_and!; try done.
  - intros now' localeDate'. apply handleBuyAllItemsClick_empty, cart_checkout.
  - intros n p. by rewrite cart_addItemToCart, cart_checkout.
Qed.

Lemma checkout_leaves_page_ready_witness :
  handleBuyAllItemsClick 1700000999999 (js "later")
    (handleBuyAllItemsClick 1700000123456 (js "14/11/2023, 22:15:23")
       (addItemToCart (js "Hoodie") 1200 freshPage))
  = handleBuyAllItemsClick 1700000123456 (js "14/11/2023, 22:15:23")
      (addItemToCart (js "Hoodie") 1200 freshPage).
Proof.
  apply (checkout_leaves_page_ready 1700000123456%Z (js "14/11/2023, 22:15:23")
           (addItemToCart (js "Hoodie") 1200 freshPage)).
  done.
Defined.

(** X16: the auto-close of a confirmation is never cancelled.  When the
    user closes the confirmation of one order and places another order, the
    auto-close scheduled by the first order, once it fires, closes the
    panel that shows the second order, whose own auto-close is still
    pending. *)
Theorem earlier_auto_close_hits_later_confirmation s t1 d1 n p t2 d2 :
  cart s ≠ [] →
  confirmationModalOpen
    (modals (run s [BuyAllItemsClick t1 d1; CloseConfirmationClick;
                    AddToCartClick n p; BuyAllItemsClick t2 d2])) = true
  ∧ confirmationOrderId
      (run s [BuyAllItemsClick t1 d1; CloseConfirmationClick;
              AddToCartClick n p; BuyAllItemsClick t2 d2])
    = Some (newOrderId t2)
  ∧ timers (run s [BuyAllItemsClick t1 d1; CloseConfirmationClick;
                   AddToCartClick n p; BuyAllItemsClick t2 d2])
    = timers s ++ [mkTimer 5000 CloseConfirmation; mkTimer 5000 CloseConfirmation]
  ∧ confirmationModalOpen
      (modals (run s [BuyAllItemsClick t1 d1; CloseConfirmationClick;
                      AddToCartClick n p; BuyAllItemsClick t2 d2;
                      TimerFires (length (timers s))])) = false
  ∧ confirmationOrderId
      (run s [BuyAllItemsClick t1 d1; CloseConfirmationClick;
              AddToCartClick n p; BuyAllItemsClick t2 d2;
              TimerFires (length (timers s))])
    = Some (newOrderId t2)
  ∧ timers (run s [BuyAllItemsClick t1 d1; CloseConfirmationClick;
                   AddToCartClick n p; BuyAllItemsClick t2 d2;
                   TimerFires (length (timers s))])
    = timers s ++ [mkTimer 5000 CloseConfirmation].
Proof.
  intros Hne.
  set (s1 := handleBuyAllItemsClick t1 d1 s).
  set (s2 := addItemToCart n p (closeModal orderConfirmationModal s1)).
  set (s3 := handleBuyAllItemsClick t2 d2 s2).
  assert (cart s2 ≠ []) as Hne2 by apply cart_addItemToCart_nonempty.
  assert (timers s3
          = timers s ++ [mkTimer 5000 CloseConfirmation; mkTimer 5000 CloseConfirmation])
    as Htimers.
  { unfold s3. rewrite timers_checkout by done.
    unfold s2. rewrite timers_addItemToCart. simpl.
    unfold s1. rewrite timers_checkout by done. by rewrite <-app_assoc. }
  assert (run s [BuyAllItemsClick t1 d1; CloseConfirmationClick;
                 AddToCartClick n p; BuyAllItemsClick t2 d2] = s3) as -> by done.
  assert (run s [BuyAllItemsClick t1 d1; CloseConfirmationClick;
                 AddToCartClick n p; BuyAllItemsClick t2 d2;
                 TimerFires (length (timers s))]
          = closeModal orderConfirmationModal
              (set_timers (timers s ++ [mkTimer 5000 CloseConfirmation]) s3)) as ->.
  { change (run s [BuyAllItemsClick t1 d1; CloseConfirmationClick;
                   AddToCartClick n p; BuyAllItemsClick t2 d2;
                   TimerFires (length (timers s))])
      with (step s3 (TimerFires (length (timers s)))).
    unfold step, dispatch. rewrite Htimers.
    rewrite lookup_app_r, Nat.sub_diag by lia. simpl.
    by rewrite delete_middle. }
  simpl. unfold s3.
  rewrite modals_checkout, confirmationOrderId_checkout by done.
  done.
Qed.

Lemma earlier_auto_close_hits_later_confirmation_witness :
  confirmationModalOpen
    (modals (run (addItemToCart (js "Hoodie") 1200 freshPage)
               [BuyAllItemsClick 1700000123456 (js "14/11/2023, 22:15:23");
                CloseConfirmationClick; AddToCartClick (js "Cap") 300;
                BuyAllItemsClick 1700000125456 (js "14/11/2023, 22:15:25");
                TimerFires 0])) = false
  ∧ confirmationOrderId
      (run (addItemToCart (js "Hoodie") 1200 freshPage)
         [BuyAllItemsClick 1700000123456 (js "14/11/2023, 22:15:23");
          CloseConfirmationClick; AddToCartClick (js "Cap") 300;
          BuyAllItemsClick 1700000125456 (js "14/11/2023, 22:15:25");
          TimerFires 0])
    = Some (js "125456").
Proof.
  destruct (earlier_auto_close_hits_later_confirmation
              (addItemToCart (js "Hoodie") 1200 freshPage)
              1700000123456%Z (js "14/11/2023, 22:15:23") (js "Cap") 300%float
              1700000125456%Z (js "14/11/2023, 22:15:25"))
    as (_ & _ & _ & Hclosed & Hid & _); [done|].
  split; [exact Hclosed|exact Hid].
Defined.

(** ** Lookups through the tracker panel *)

Lemma step_TrackOrderClick s id :
  trim (orderNumberInput (tracker s)) = id → id ≠ [] →
  step s TrackOrderClick = trackOrder id s.
Proof.
  intros Htrim Hne. unfold step, dispatch, trackOrderBtnClick.
  rewrite Htrim. by rewrite bool_decide_eq_true_2.
Qed.

Lemma step_TimerFires s k t :
  timers s !! k = Some t →
  step s (TimerFires k)
  = runCallback (callback t) (set_timers (delete k (timers s)) s).
Proof. intros Hk. unfold step, dispatch. by rewrite Hk. Qed.

(** X17: the number looked up is the trimmed content of the text field.
    With a field that is not blank, typing, clicking the track button and
    letting the delayed closure run changes the tracker panel only: it
    shows the details of the first stored order whose id is the trimmed
    text, or the "Not Found" message naming the trimmed text; no timer is
    left behind. *)
Theorem lookup_uses_trimmed_input s text :
  trim text ≠ [] →
  run s [TypeOrderNumber text; TrackOrderClick; TimerFires (length (timers s))]
  = set_tracker
      match findOrder (trim text) (orders s) with
      | Some (_, o) =>
          mkTracker text
            (StatusDetails (orderId o) (date o) (itemsListOf o) (total o))
            true false
      | None => mkTracker text (StatusText (notFoundText (trim text))) false true
      end s.
Proof.
  intros Hne. unfold run. simpl foldl.
  rewrite (step_TrackOrderClick _ (trim text)) by done.
  erewrite step_TimerFires.
  2:{ unfold trackOrder, setTimeout, step. simpl.
      by rewrite lookup_app_r, Nat.sub_diag by lia. }
  destruct s as [c os v m conf t ts]. unfold trackOrder, setTimeout, step. simpl.
  rewrite delete_middle, app_nil_r.
  by destruct (findOrder (trim text) os) as [[i o]|].
Qed.

Lemma lookup_uses_trimmed_input_witness :
  tracker (run hoodieBought
             [TypeOrderNumber ([160; 32]%N ++ js "123456" ++ [9; 65279]%N);
              TrackOrderClick;
              TimerFires (length (timers hoodieBought))])
  = mkTracker ([160; 32]%N ++ js "123456" ++ [9; 65279]%N)
      (StatusDetails (js "123456") (js "14/11/2023, 22:15:23")
                     (js "Hoodie (x1)") 1200)
      true false.
Proof.
  rewrite (lookup_uses_trimmed_input hoodieBought
             ([160; 32]%N ++ js "123456" ++ [9; 65279]%N)); [|done].
  reflexivity.
Defined.

(** X18: the delayed closures only add a style class, so overlapping
    lookups mix them.  When a lookup that finds an order and a lookup that
    finds none are both requested before either result is shown, then once
    both closures have run the status shows the result of the later
    request and carries both the success and the error class. *)
Theorem overlapping_lookups_mix_classes s id1 id2 i o :
  trim id1 = id1 → id1 ≠ [] → trim id2 = id2 → id2 ≠ [] →
  findOrder id1 (orders s) = Some (i, o) →
  findOrder id2 (orders s) = None →
  tracker (run s [TypeOrderNumber id1; TrackOrderClick;
                  TypeOrderNumber id2; TrackOrderClick;
                  TimerFires (length (timers s)); TimerFires (length (timers s))])
  = mkTracker id2 (StatusText (notFoundText id2)) true true
  ∧ tracker (run s [TypeOrderNumber id2; TrackOrderClick;
                    TypeOrderNumber id1; TrackOrderClick;
                    TimerFires (length (timers s)); TimerFires (length (timers s))])
    = mkTracker id1
        (StatusDetails (orderId o) (date o) (itemsListOf o) (total o))
        true true.
Proof.
  intros Htrim1 Hne1 Htrim2 Hne2 Hfound Hnone.
  assert (∀ ida idb ra rb,
            trim ida = ida → ida ≠ [] → trim idb = idb → idb ≠ [] →
            snd <$> findOrder ida (orders s) = ra →
            snd <$> findOrder idb (orders s) = rb →
            run s [TypeOrderNumber ida; TrackOrderClick;
                   TypeOrderNumber idb; TrackOrderClick;
                   TimerFires (length (timers s)); TimerFires (length (timers s))]
            = showTrackingResult idb rb
                (showTrackingResult ida ra
                   (set_tracker (mkTracker idb (StatusText (js "Tracking your order..."))
                                           false false) s))) as Hrun.
  { intros ida idb ra rb Ha Hna Hb Hnb Hra Hrb. unfold run. simpl foldl.
    set (a := step s (TypeOrderNumber ida)).
    rewrite (step_TrackOrderClick a ida Ha Hna).
    set (b := step (trackOrder ida a) (TypeOrderNumber idb)).
    rewrite (step_TrackOrderClick b idb Hb Hnb).
    assert (timers (trackOrder idb b)
            = timers s ++ mkTimer 1500 (ShowTrackingResult ida ra)
                          :: [mkTimer 1500 (ShowTrackingResult idb rb)]) as Htimers.
    { unfold trackOrder, setTimeout. simpl. rewrite Hra, Hrb.
      by rewrite <-app_assoc. }
    rewrite (step_TimerFires (trackOrder idb b) _
               (mkTimer 1500 (ShowTrackingResult ida ra)))
      by (rewrite Htimers; by rewrite lookup_app_r, Nat.sub_diag by lia).
    rewrite Htimers, delete_middle.
    rewrite (step_TimerFires _ _ (mkTimer 1500 (ShowTrackingResult idb rb))).
    2:{ assert (∀ cb s0, timers (runCallback cb s0) = timers s0) as Hcb
          by (by intros [|n0 [o0|]] s0).
        rewrite Hcb. simpl. by rewrite lookup_app_r, Nat.sub_diag by lia. }
    subst a b. clear. destruct s as [c os v m conf t ts].
    destruct ra, rb; unfold trackOrder, setTimeout, step; simpl;
      by rewrite delete_middle, app_nil_r. }
  split.
  - rewrite (Hrun id1 id2 (Some o) None) by (done || by rewrite ?Hfound, ?Hnone).
    done.
  - rewrite (Hrun id2 id1 None (Some o)) by (done || by rewrite ?Hfound, ?Hnone).
    done.
Qed.

Lemma overlapping_lookups_mix_classes_witness :
  tracker (run hoodieBought
             [TypeOrderNumber (js "123456"); TrackOrderClick;
              TypeOrderNumber (js "000000"); TrackOrderClick;
              TimerFires (length (timers hoodieBought));
              TimerFires (length (timers hoodieBought))])
  = mkTracker (js "000000")
      (StatusText (js "Order 000000: Not Found. Please check the number and try again."))
      true true.
Proof.
  apply (proj1 (overlapping_lookups_mix_classes hoodieBought (js "123456") (js "000000") 0
                  (mkOrder (js "123456") [mkLineItem (js "Hoodie") 1200 1] 1200
                           (js "14/11/2023, 22:15:23"))
                  eq_refl ltac:(done) eq_refl ltac:(done) eq_refl eq_refl)).
Defined.

(** ** A cart filled by adds alone *)

Lemma occurrences_snoc n adds a :
  occurrences n (adds ++ [a])
  = (occurrences n adds + if decide (a.1 = n) then 1 else 0)%Z.
Proof.
  unfold occurrences. rewrite filter_app, length_app, filter_cons, filter_nil.
  case_decide; simpl; lia.
Qed.

Lemma occurrences_notin n adds : n ∉ adds.*1 → occurrences n adds = 0%Z.
Proof.
  intros Hnot. unfold occurrences.
  induction adds as [|a adds IH]; [done|].
  rewrite fmap_cons, not_elem_of_cons in Hnot. destruct Hnot as [Hne Hnot].
  rewrite filter_cons_False by done. by apply IH.
Qed.

Lemma firstPrice_snoc_in n adds a :
  n ∈ adds.*1 → firstPrice n (adds ++ [a]) = firstPrice n adds.
Proof.
  intros (b & -> & Hin)%list_elem_of_fmap. unfold firstPrice.
  destruct (list_find_elem_of (λ a0, a0.1 = b.1) adds b Hin eq_refl) as [[i x] Hfind].
  by rewrite (list_find_app_l _ _ _ _ _ Hfind), Hfind.
Qed.

Lemma firstPrice_snoc_new n p adds :
  n ∉ adds.*1 → firstPrice n (adds ++ [(n, p)]) = Some p.
Proof.
  intros Hnot. unfold firstPrice.
  rewrite list_find_app_r.
  - simpl. by rewrite decide_True.
  - apply list_find_None, Forall_forall. intros a Hin Ha.
    apply Hnot, list_elem_of_fmap. eauto.
Qed.

Lemma sumQuantity_addItemToCart n p s :
  sumQuantity (cart (addItemToCart n p s)) = (sumQuantity (cart s) + 1)%Z.
Proof.
  rewrite cart_addItemToCart. unfold sumQuantity.
  destruct (findIndex n (cart s)) as [[i item]|] eqn:Hfind.
  - apply findIndex_Some in Hfind as (Hi & _ & _).
    rewrite (sumZ_insert _ _ _ item) by done. simpl. lia.
  - rewrite sumZ_app. simpl. lia.
Qed.

(** What a cart filled by the adds [adds] looks like. *)
Lemma cart_of_adds_step adds n p s :
  cartInvariant (cart s) →
  (∀ n', n' ∈ name <$> cart s ↔ n' ∈ adds.*1) →
  (∀ item, item ∈ cart s →
     quantity item = occurrences (name item) adds
     ∧ firstPrice (name item) adds = Some (price item)) →
  (∀ n', n' ∈ name <$> cart (addItemToCart n p s) ↔ n' ∈ (adds ++ [(n, p)]).*1)
  ∧ (∀ item, item ∈ cart (addItemToCart n p s) →
       quantity item = occurrences (name item) (adds ++ [(n, p)])
       ∧ firstPrice (name item) (adds ++ [(n, p)]) = Some (price item)).
Proof.
  intros [Hnd _] Hnames Hitems. rewrite cart_addItemToCart.
  destruct (findIndex n (cart s)) as [[i item]|] eqn:Hfind.
  - apply findIndex_Some in Hfind as (Hi & Hname & _).
    assert (n ∈ name <$> cart s) as Hin.
    { apply list_elem_of_fmap. exists item. split; [done|].
      by eapply list_elem_of_lookup_2. }
    split.
    + intros n'. rewrite (names_insert_same _ i item) by done.
      rewrite fmap_app, elem_of_app, Hnames. simpl.
      rewrite list_elem_of_singleton. split; [by left|].
      intros [?| ->]; [done|]. by apply Hnames.
    + intros item' (j & Hj)%list_elem_of_lookup.
      destruct (decide (j = i)) as [->|Hji].
      * rewrite list_lookup_insert_eq in Hj by by eapply lookup_lt_Some.
        injection Hj as <-. unfold incrQuantity. simpl.
        destruct (Hitems item) as [Hq Hp]; [by eapply list_elem_of_lookup_2|].
        rewrite occurrences_snoc, decide_True by done.
        rewrite firstPrice_snoc_in by (rewrite Hname; by apply Hnames).
        split; [lia|done].
      * rewrite list_lookup_insert_ne in Hj by done.
        assert (name item' ≠ n) as Hother.
        { intros Heq. apply Hji.
          eapply (NoDup_lookup _ j i n Hnd); rewrite list_lookup_fmap.
          - rewrite Hj. simpl. by rewrite Heq.
          - rewrite Hi. simpl. by rewrite Hname. }
        destruct (Hitems item') as [Hq Hp]; [by eapply list_elem_of_lookup_2|].
        rewrite occurrences_snoc, decide_False by done.
        rewrite firstPrice_snoc_in.
        -- split; [lia|done].
        -- apply Hnames, list_elem_of_fmap. exists item'. split; [done|].
           by eapply list_elem_of_lookup_2.
  - apply findIndex_None in Hfind. split.
    + intros n'. rewrite !fmap_app, !elem_of_app, Hnames. done.
    + intros item' [Hin | ->%list_elem_of_singleton]%elem_of_app.
      * assert (name item' ∈ name <$> cart s) as Hname
          by (apply list_elem_of_fmap; eauto).
        assert (name item' ≠ n) as Hother
          by (intros Heq; by rewrite Heq in Hname).
        destruct (Hitems item' Hin) as [Hq Hp].
        rewrite occurrences_snoc, decide_False by done.
        rewrite firstPrice_snoc_in by by apply Hnames.
        split; [lia|done].
      * simpl. rewrite occurrences_snoc, decide_True by done.
        rewrite occurrences_notin by (by rewrite <-Hnames).
        rewrite firstPrice_snoc_new by (by rewrite <-Hnames). done.
Qed.

Lemma run_snoc s es e : run s (es ++ [e]) = step (run s es) e.
Proof. unfold run. by rewrite foldl_snoc. Qed.

Lemma cartInvariant_run s es :
  cartInvariant (cart s) → cartInvariant (cart (run s es)).
Proof.
  revert s. induction es as [|e es IH]; intros s Hs; [done|].
  simpl. by apply IH, cartInvariant_step.
Qed.

(** X19: a cart filled from empty by add clicks alone counts them: it holds
    exactly the names that were added, each once; the quantity of an entry
    is the number of adds of its name and its price is the price of the
    first of them; and the quantities sum to the number of clicks. *)
Theorem cart_counts_adds adds s :
  cart s = [] →
  NoDup (name <$> cart (run s (addClicks adds)))
  ∧ (∀ n, n ∈ name <$> cart (run s (addClicks adds)) ↔ n ∈ adds.*1)
  ∧ (∀ item, item ∈ cart (run s (addClicks adds)) →
       quantity item = occurrences (name item) adds
       ∧ firstPrice (name item) adds = Some (price item))
  ∧ sumQuantity (cart (run s (addClicks adds))) = Z.of_nat (length adds).
Proof.
  intros Hempty.
  assert (∀ es, cartInvariant (cart (run s es))) as Hinv.
  { intros es. apply cartInvariant_run. rewrite Hempty. apply cartInvariant_nil. }
  split; [apply Hinv|].
  induction adds as [|[n p] adds IH] using rev_ind.
  - simpl. rewrite Hempty. split_and!; [done| |done].
    intros item Hin. by apply elem_of_nil in Hin.
  - destruct IH as (Hnames & Hitems & Hsum).
    unfold addClicks. rewrite fmap_app. simpl.
    rewrite run_snoc.
    change (step ?s0 (AddToCartClick n p)) with (addItemToCart n p s0).
    fold (addClicks adds).
    destruct (cart_of_adds_step adds n p _ (Hinv _) Hnames Hitems) as [Hn' Hi'].
    split_and!; [done|done|].
    rewrite sumQuantity_addItemToCart, Hsum, length_app. simpl. lia.
Qed.

Lemma cart_counts_adds_witness :
  sumQuantity (cart (run freshPage
                       (addClicks [(js "Hoodie", 1200%float); (js "Cap", 300%float);
                                   (js "Hoodie", 999%float)])))
  = 3%Z.
Proof.
  apply (cart_counts_adds [(js "Hoodie", 1200%float); (js "Cap", 300%float); (js "Hoodie", 999%float)]
           freshPage).
  reflexivity.
Defined.

(** ** Buying at once, reopening the tracker, and late orders *)

Lemma name_in_cart_after_add n p s : n ∈ name <$> cart (addItemToCart n p s).
Proof.
  rewrite cart_addItemToCart.
  destruct (findIndex n (cart s)) as [[i item]|] eqn:Hfind.
  - apply findIndex_Some in Hfind as (Hi & Hname & _).
    rewrite (names_insert_same _ i item) by done.
    apply list_elem_of_fmap. exists item. split; [done|].
    by eapply list_elem_of_lookup_2.
  - rewrite fmap_app, elem_of_app. right. by left.
Qed.

(** X20: "Buy Now" opens the cart panel on a cart that holds the product,
    and a click on the buy button right after it always places an order:
    exactly one order is appended, it holds the cart with the product in
    it, and the cart is empty and its panel closed afterwards.  From an
    empty cart the order is the product alone, once, and its total is
    0 + price × 1 in the arithmetic of JS numbers. *)
Theorem buy_now_then_checkout n p now localeDate s :
  cartModalOpen (modals (step s (BuyNowClick n p))) = true
  ∧ orders (run s [BuyNowClick n p; BuyAllItemsClick now localeDate])
    = orders s
      ++ [mkOrder (newOrderId now) (cart (addItemToCart n p s))
                  (cartTotal (cart (addItemToCart n p s))) localeDate]
  ∧ n ∈ name <$> cart (addItemToCart n p s)
  ∧ cart (run s [BuyNowClick n p; BuyAllItemsClick now localeDate]) = []
  ∧ cartModalOpen
      (modals (run s [BuyNowClick n p; BuyAllItemsClick now localeDate])) = false
  ∧ (cart s = [] →
     cart (addItemToCart n p s) = [mkLineItem n p 1]
     ∧ cartTotal (cart (addItemToCart n p s)) = (0 + p * numberOfZ 1)%float).
Proof.
  assert (cart (openModal shoppingCartModal (addItemToCart n p s)) ≠ []) as Hne
    by apply cart_addItemToCart_nonempty.
  change (run s [BuyNowClick n p; BuyAllItemsClick now localeDate])
    with (handleBuyAllItemsClick now localeDate
            (openModal shoppingCartModal (addItemToCart n p s))).
  split_and!.
  - done.
  - rewrite orders_checkout by done. simpl. by rewrite orders_addItemToCart.
  - apply name_in_cart_after_add.
  - apply cart_checkout.
  - by rewrite modals_checkout.
  - intros Hempty. rewrite cart_addItemToCart, Hempty. simpl.
    split; [done|]. done.
Qed.

(** The total of such an order is not always the price itself: a price of
    -0 gives a total of 0. *)
Example buy_now_negative_zero :
  total <$> orders (run freshPage [BuyNowClick (js "Gift") (-0);
                                   BuyAllItemsClick 1700000123456 (js "today")])
  = [0%float]
  ∧ 0%float ≠ (-0)%float.
Proof.
  split; [reflexivity|].
  intros Heq. apply FloatAxioms.Leibniz.eqb_spec in Heq. by vm_compute in Heq.
Qed.

(** X21: opening the tracker panel empties its text field, so a click on
    the track button right after it always ends in the validation error,
    whatever had been typed or shown before: the panel is open, the field
    is empty, the status carries the error class only, nothing is scheduled
    and the rest of the page is untouched. *)
Theorem reopened_tracker_rejects_track s :
  run s [OrderTrackerLinkClick; TrackOrderClick]
  = set_tracker (mkTracker [] (StatusText (js "Please enter a valid order number."))
                           false true)
      (openModal orderTrackerModal s).
Proof. by destruct s. Qed.

(** X22: the result of a lookup is fixed when the track button is clicked.
    If the number asked for is in no stored order at that moment, the
    status shows "Not Found" when the delayed closure runs, even when a
    checkout has stored an order with that very id in between. *)
Theorem lookup_result_fixed_at_request s id now localeDate :
  trim id = id → id ≠ [] →
  findOrder id (orders s) = None →
  cart s ≠ [] → newOrderId now = id →
  status (tracker (run s [TypeOrderNumber id; TrackOrderClick;
                          BuyAllItemsClick now localeDate;
                          TimerFires (length (timers s))]))
  = StatusText (notFoundText id)
  ∧ statusError (tracker (run s [TypeOrderNumber id; TrackOrderClick;
                                 BuyAllItemsClick now localeDate;
                                 TimerFires (length (timers s))])) = true
  ∧ findOrder id (orders (run s [TypeOrderNumber id; TrackOrderClick;
                                 BuyAllItemsClick now localeDate;
                                 TimerFires (length (timers s))]))
    = Some (length (orders s), orderOf now localeDate s).
Proof.
  intros Htrim Hne Hnone Hcart Hid.
  unfold run. simpl foldl.
  set (a := step s (TypeOrderNumber id)).
  rewrite (step_TrackOrderClick a id Htrim Hne).
  set (b := trackOrder id a).
  change (step b (BuyAllItemsClick now localeDate))
    with (handleBuyAllItemsClick now localeDate b).
  set (c := handleBuyAllItemsClick now localeDate b).
  assert (cart b = cart s) as Hcartb by done.
  assert (cart b ≠ []) as Hneb by (by rewrite Hcartb).
  assert (timers c = timers s ++ mkTimer 1500 (ShowTrackingResult id None)
                                 :: [mkTimer 5000 CloseConfirmation]) as Htimers.
  { unfold c. rewrite timers_checkout by done.
    unfold b, trackOrder, setTimeout. simpl. rewrite Hnone.
    by rewrite <-app_assoc. }
  rewrite (step_TimerFires c _ (mkTimer 1500 (ShowTrackingResult id None)))
    by (rewrite Htimers; by rewrite lookup_app_r, Nat.sub_diag by lia).
  simpl. split_and!; [done..|].
  unfold c. rewrite orders_checkout by done.
  change (orders b) with (orders s). rewrite <-Hid in Hnone |- *.
  apply findOrder_snoc_fresh; [by apply findOrder_None|].
  done.
Qed.

Lemma lookup_result_fixed_at_request_witness :
  status (tracker (run (addItemToCart (js "Hoodie") 1200 freshPage)
                     [TypeOrderNumber (js "123456"); TrackOrderClick;
                      BuyAllItemsClick 1700000123456 (js "14/11/2023, 22:15:23");
                      TimerFires 0]))
  = StatusText (js "Order 123456: Not Found. Please check the number and try again.").
Proof.
  apply (lookup_result_fixed_at_request (addItemToCart (js "Hoodie") 1200 freshPage)
           (js "123456") 1700000123456%Z (js "14/11/2023, 22:15:23"));
    first [reflexivity | done].
Defined.

Lemma buy_now_then_checkout_witness :
  orders (run freshPage [BuyNowClick (js "Hoodie") 1200;
                         BuyAllItemsClick 1700000123456 (js "14/11/2023, 22:15:23")])
  = [mkOrder (js "123456") [mkLineItem (js "Hoodie") 1200 1] 1200 (js "14/11/2023, 22:15:23")].
Proof.
  destruct (buy_now_then_checkout (js "Hoodie") 1200%float 1700000123456%Z
              (js "14/11/2023, 22:15:23") freshPage)
    as (_ & Horders & _ & _ & _ & Hfresh).
  destruct (Hfresh eq_refl) as [Hcart Htotal].
  rewrite Horders, Hcart. reflexivity.
Defined.
